(** * Positional JSON-object extraction: [tools/extract_id_blocks_from_json.py]

    A shallow embedding of the three functions of the script
    ([find_all_positions], [extract_json_object] and [main]) together with
    the Python primitives they rely on, followed by the properties of the
    extractor that the specification states.

    Conventions.
    - A Python [str] is a [string]; one [ascii] stands for one character of
      the document, so offsets are character offsets.
    - A Python [int] is a [Z]; the sentinel [-1] of [str.find] and of the
      [not found] result is the integer [-1].
    - The two [while] loops of [extract_json_object] and the one of
      [find_all_positions] are fixpoints on a fuel argument; the fuel that
      the top-level functions pass is shown to be sufficient, so the third
      outcome [OutOfFuel] is never the result of a call. *)

From Stdlib Require Import ZArith String Ascii List Sorted Lia.
From Stdlib Require Import DecimalString DecimalPos DecimalZ.
From stdpp Require Import base gmap strings list.

Open Scope string_scope.
Open Scope Z_scope.

(** ** Outcomes: a value, a raised exception, or exhausted fuel *)

Inductive outcome (E A : Type) : Type :=
| Done (a : A)
| Raise (e : E)
| OutOfFuel.

Arguments Done {E A} a.
Arguments Raise {E A} e.
Arguments OutOfFuel {E A}.

Definition bind {E A B : Type} (m : outcome E A) (k : A -> outcome E B)
    : outcome E B :=
  match m with
  | Done a => k a
  | Raise e => Raise e
  | OutOfFuel => OutOfFuel
  end.

Notation "'do' x <- m ; k" := (bind m (fun x => k))
  (at level 10, x name, m at level 100, k at level 200).
Notation "'do' ' p <- m ; k" := (bind m (fun x => let 'p := x in k))
  (at level 10, p pattern, m at level 100, k at level 200).

(** The one exception that the string operations of the script raise. *)
Inductive exn : Type :=
| IndexError.

(** [str(e)] *)
Definition exn_message (e : exn) : string :=
  match e with
  | IndexError => "string index out of range"
  end.

(** ** Python string primitives *)

Module Py.

Definition dquote : ascii := ascii_of_nat 34.
Definition lbrace : ascii := ascii_of_nat 123.
Definition rbrace : ascii := ascii_of_nat 125.

(** [len(s)] *)
Definition len (s : string) : Z := Z.of_nat (String.length s).

(** [s[i]]: a negative index counts from the end; anything outside
    [-len(s) .. len(s) - 1] raises [IndexError]. *)
Definition index (s : string) (i : Z) : outcome exn ascii :=
  let j := if i <? 0 then i + len s else i in
  if (j <? 0) || (len s <=? j) then Raise IndexError
  else match String.get (Z.to_nat j) s with
       | Some c => Done c
       | None => Raise IndexError
       end.

(** Normalisation of a slice bound: negative bounds count from the end,
    and the result is clipped to [0 .. len(s)]. *)
Definition clip (n i : Z) : Z :=
  let i := if i <? 0 then i + n else i in
  if i <? 0 then 0 else if n <? i then n else i.

(** [s[a:b]] *)
Definition slice (s : string) (a b : Z) : string :=
  let a' := clip (len s) a in
  let b' := clip (len s) b in
  String.substring (Z.to_nat a') (Z.to_nat (b' - a')) s.

(** [s.find(sub, start)]: the lowest offset [>= start] at which [sub]
    occurs in [s], or [-1]. *)
Definition find (s sub : string) (start : Z) : Z :=
  let start := if start <? 0 then Z.max 0 (start + len s) else start in
  match String.index (Z.to_nat start) sub s with
  | Some m => Z.of_nat m
  | None => -1
  end.

(** [str(n)] for an [int]. *)
Definition str (n : Z) : string := NilZero.string_of_int (Z.to_int n).

(** Writes a document with apostrophes in place of double quotes. *)
Fixpoint dq (s : string) : string :=
  match s with
  | EmptyString => EmptyString
  | String c r => String (if Ascii.eqb c "'" then dquote else c) (dq r)
  end.

End Py.

(** ** [find_all_positions] *)

(** The f-string ["id": "{target_id}"], with its four double quotes. *)
Definition search_str (target_id : string) : string :=
  String Py.dquote ("id" +:+ String Py.dquote (": " +:+
    String Py.dquote (target_id +:+ String Py.dquote EmptyString))).

(** The loop [while pos != -1: positions.append(pos); pos = find(.., pos + 1)]. *)
Fixpoint find_loop (fuel : nat) (content search : string) (pos : Z)
    (positions : list Z) : outcome exn (list Z) :=
  match fuel with
  | O => OutOfFuel
  | S fuel' =>
      if pos =? -1 then Done positions
      else find_loop fuel' content search
             (Py.find content search (pos + 1)) (positions ++ [pos])
  end.

Definition find_all_positions (content target_id : string)
    : outcome exn (list Z) :=
  let positions := [] in
  let search := search_str target_id in
  let pos := Py.find content search 0 in
  find_loop (S (S (String.length content))) content search pos positions.

(** ** [extract_json_object] *)

(** Backward search for the opening bracket:
    [while object_start >= 0: if content[object_start] == '{': break;
     object_start -= 1]. *)
Fixpoint backward_scan (fuel : nat) (content : string) (object_start : Z)
    : outcome exn Z :=
  match fuel with
  | O => OutOfFuel
  | S fuel' =>
      if 0 <=? object_start then
        do c <- Py.index content object_start;
        if Ascii.eqb c Py.lbrace then Done object_start
        else backward_scan fuel' content (object_start - 1)
      else Done object_start
  end.

(** Forward search for the matching closing bracket:
    [while object_end < len(content) and bracket_count > 0:
       object_end += 1
       if content[object_end] == '{': bracket_count += 1
       elif content[object_end] == '}': bracket_count -= 1]. *)
Fixpoint forward_scan (fuel : nat) (content : string)
    (object_end bracket_count : Z) : outcome exn (Z * Z) :=
  match fuel with
  | O => OutOfFuel
  | S fuel' =>
      if (object_end <? Py.len content) && (0 <? bracket_count) then
        let object_end := object_end + 1 in
        do c <- Py.index content object_end;
        let bracket_count :=
          if Ascii.eqb c Py.lbrace then bracket_count + 1
          else if Ascii.eqb c Py.rbrace then bracket_count - 1
          else bracket_count in
        forward_scan fuel' content object_end bracket_count
      else Done (object_end, bracket_count)
  end.

Definition backward_fuel (start_pos : Z) : nat :=
  S (Z.to_nat (start_pos + 1)).

Definition forward_fuel (content : string) (start_pos : Z) : nat :=
  S (Z.to_nat (Py.len content - start_pos)).

(** The result triple [(object, start, end)]; the [not found] result is
    [(None, -1, -1)]. *)
Definition extract_json_object (content : string) (start_pos : Z)
    : outcome exn (option string * Z * Z) :=
  do object_start <- backward_scan (backward_fuel start_pos) content start_pos;
  do '(object_end, bracket_count) <-
     forward_scan (forward_fuel content start_pos) content start_pos 1;
  if bracket_count =? 0 then
    Done (Some (Py.slice content object_start (object_end + 1)),
          object_start, object_end)
  else Done (None, -1, -1).

(** ** [main] *)

(** One element of the printed array: the dictionary
    [{"first_line": str(start), "last_line": str(end), "data": parsed_obj}]. *)
Record result (V : Type) : Type := Result {
  first_line : string;
  last_line : string;
  data : V
}.

Arguments Result {V} _ _ _.
Arguments first_line {V} _.
Arguments last_line {V} _.
Arguments data {V} _.

(** What [main] prints: [json.dumps] of a list of results (with the
    [indent] it was given, if any), or [json.dumps] of the dictionary
    [{"error": message}]. *)
Inductive printed (V : Type) : Type :=
| PrintArray (indent : option Z) (results : list (result V))
| PrintError (message : string).

Arguments PrintArray {V} indent results.
Arguments PrintError {V} message.

(** What [open(args.filename, 'r')] followed by [file.read()] gives. *)
Inductive file : Type :=
| Text (content : string)
| Missing                        (* FileNotFoundError *)
| Unreadable (message : string). (* any other exception [e]; [message] is [str(e)] *)

Section Main.

(** [json.loads] belongs to Python's library: [main] is written over any
    decoder, [None] standing for a raised [json.JSONDecodeError]. *)
Context {V : Type} (json_loads : string -> option V).

(** The body of [for pos in positions], on the pair
    [(results, found_objects)]. *)
Definition visit (content : string)
    (st : list (result V) * gset (Z * Z)) (pos : Z)
    : outcome exn (list (result V) * gset (Z * Z)) :=
  let '(results, found_objects) := st in
  do '(obj, start, end_) <- extract_json_object content pos;
  match obj with
  | Some (String c text) =>
      let obj_key := (start, end_) in
      if decide (obj_key ∈ found_objects) then Done (results, found_objects)
      else
        let found_objects := found_objects ∪ {[obj_key]} in
        match json_loads (String c text) with
        | Some parsed_obj =>
            let result := Result (Py.str start) (Py.str end_) parsed_obj in
            Done ((results ++ [result])%list, found_objects)
        | None => Done (results, found_objects)
        end
  | _ => Done (results, found_objects)
  end.

Fixpoint for_positions (content : string) (positions : list Z)
    (st : list (result V) * gset (Z * Z))
    : outcome exn (list (result V) * gset (Z * Z)) :=
  match positions with
  | [] => Done st
  | pos :: positions' =>
      do st' <- visit content st pos;
      for_positions content positions' st'
  end.

(** The statements inside [try], after the file has been read. *)
Definition main_try (content id : string) : outcome exn (printed V) :=
  do positions <- find_all_positions content id;
  match positions with
  | [] => Done (PrintArray None [])
  | _ :: _ =>
      do '(results, _) <- for_positions content positions ([], ∅);
      Done (PrintArray (Some 2) results)
  end.

(** [main], with the two [except] clauses. *)
Definition main (f : file) (filename id : string) : outcome exn (printed V) :=
  match f with
  | Text content =>
      match main_try content id with
      | Done out => Done out
      | Raise e => Done (PrintError (exn_message e))
      | OutOfFuel => OutOfFuel
      end
  | Missing => Done (PrintError ("File '" +:+ filename +:+ "' not found"))
  | Unreadable message => Done (PrintError message)
  end.

(** A run of the script in a world: the files it can read and what has
    been written to standard output so far. *)
Record world : Type := World {
  files : string -> file;
  stdout : list (printed V)
}.

Definition run (w : world) (filename id : string) : outcome exn world :=
  do out <- main (files w filename) filename id;
  Done (World (files w) (stdout w ++ [out])%list).

End Main.

Arguments world : clear implicits.
Arguments World {V} _ _.
Arguments files {V} _ _.
Arguments stdout {V} _.

(** ** A decoder for [json.loads]

    The decoder follows the grammar that Python's [json] module accepts in
    its default (strict) mode and returns the syntax tree of the text:
    string bodies and number lexemes are kept as written, members of an
    object in the order of the text.  Equal trees denote equal Python
    values. *)

Module Json.

#[warnings="-register-all"]
Inductive value : Type :=
| Null
| Bool (b : bool)
| Number (lexeme : string)
| Constant (name : string)    (* NaN, Infinity, -Infinity *)
| Str (body : string)
| Array (items : list value)
| Object (members : list (string * value)).

(** [json.JSONDecodeError] *)
Inductive error : Type :=
| JSONDecodeError.

Definition backslash : ascii := ascii_of_nat 92.

Definition is_ws (c : ascii) : bool :=
  let n := nat_of_ascii c in
  Nat.eqb n 32 || Nat.eqb n 9 || Nat.eqb n 10 || Nat.eqb n 13.

Definition is_digit (c : ascii) : bool :=
  let n := nat_of_ascii c in Nat.leb 48 n && Nat.leb n 57.

Definition is_hex (c : ascii) : bool :=
  let n := nat_of_ascii c in
  is_digit c || (Nat.leb 65 n && Nat.leb n 70) || (Nat.leb 97 n && Nat.leb n 102).

Definition is_simple_escape (c : ascii) : bool :=
  Ascii.eqb c Py.dquote || Ascii.eqb c backslash || Ascii.eqb c "/" ||
  Ascii.eqb c "b" || Ascii.eqb c "f" || Ascii.eqb c "n" ||
  Ascii.eqb c "r" || Ascii.eqb c "t".

Fixpoint skip_ws (s : string) : string :=
  match s with
  | String c r => if is_ws c then skip_ws r else s
  | EmptyString => s
  end.

(** The body of a string literal, from just after its opening quote, and
    the text after its closing quote. *)
Fixpoint scan_string (s : string) : outcome error (string * string) :=
  match s with
  | EmptyString => Raise JSONDecodeError
  | String c r =>
      if Ascii.eqb c Py.dquote then Done (EmptyString, r)
      else if Ascii.eqb c backslash then
        match r with
        | String e r1 =>
            if is_simple_escape e then
              do '(body, rest) <- scan_string r1;
              Done (String c (String e body), rest)
            else if Ascii.eqb e "u" then
              match r1 with
              | String h1 (String h2 (String h3 (String h4 r2))) =>
                  if is_hex h1 && is_hex h2 && is_hex h3 && is_hex h4 then
                    do '(body, rest) <- scan_string r2;
                    Done (String c (String e (String h1 (String h2
                            (String h3 (String h4 body))))), rest)
                  else Raise JSONDecodeError
              | _ => Raise JSONDecodeError
              end
            else Raise JSONDecodeError
        | EmptyString => Raise JSONDecodeError
        end
      else if Nat.ltb (nat_of_ascii c) 32 then Raise JSONDecodeError
      else
        do '(body, rest) <- scan_string r;
        Done (String c body, rest)
  end.

Fixpoint digits (s : string) : string * string :=
  match s with
  | String c r =>
      if is_digit c then let '(d, rest) := digits r in (String c d, rest)
      else (EmptyString, s)
  | EmptyString => (EmptyString, s)
  end.

(** The optional fraction and exponent after the integer part. *)
Definition scan_fraction (s : string) : string * string :=
  match s with
  | String c r =>
      if Ascii.eqb c "." then
        match digits r with
        | (String d ds, rest) => (String c (String d ds), rest)
        | (EmptyString, _) => (EmptyString, s)
        end
      else (EmptyString, s)
  | EmptyString => (EmptyString, s)
  end.

Definition scan_exponent (s : string) : string * string :=
  match s with
  | String c r =>
      if Ascii.eqb c "e" || Ascii.eqb c "E" then
        let '(sign, r1) :=
          match r with
          | String g r' =>
              if Ascii.eqb g "+" || Ascii.eqb g "-"
              then (String g EmptyString, r') else (EmptyString, r)
          | EmptyString => (EmptyString, r)
          end in
        match digits r1 with
        | (String d ds, rest) => (String c (sign +:+ String d ds), rest)
        | (EmptyString, _) => (EmptyString, s)
        end
      else (EmptyString, s)
  | EmptyString => (EmptyString, s)
  end.

(** A number at the head of [s]: an optional minus sign, then a single
    zero or a digit string without leading zero, then an optional
    fraction and an optional exponent. *)
Definition scan_number (s : string) : option (string * string) :=
  let '(sign, s1) :=
    match s with
    | String c r =>
        if Ascii.eqb c "-" then (String c EmptyString, r) else (EmptyString, s)
    | EmptyString => (EmptyString, s)
    end in
  match s1 with
  | String c r =>
      if is_digit c then
        let '(int, r1) :=
          if Ascii.eqb c "0" then (String c EmptyString, r)
          else let '(d, rest) := digits r in (String c d, rest) in
        let '(frac, r2) := scan_fraction r1 in
        let '(exp, r3) := scan_exponent r2 in
        Some (sign +:+ int +:+ frac +:+ exp, r3)
      else None
  | EmptyString => None
  end.

(** [s] without the prefix [p], when it starts with it. *)
Fixpoint strip (p s : string) : option string :=
  match p, s with
  | EmptyString, _ => Some s
  | String a p', String b s' => if Ascii.eqb a b then strip p' s' else None
  | String _ _, EmptyString => None
  end.

Definition scan_word (s : string) : option (value * string) :=
  match strip "null" s with Some r => Some (Null, r) | None =>
  match strip "true" s with Some r => Some (Bool true, r) | None =>
  match strip "false" s with Some r => Some (Bool false, r) | None =>
  match scan_number s with Some (lexeme, r) => Some (Number lexeme, r) | None =>
  match strip "NaN" s with Some r => Some (Constant "NaN", r) | None =>
  match strip "Infinity" s with Some r => Some (Constant "Infinity", r) | None =>
  match strip "-Infinity" s with Some r => Some (Constant "-Infinity", r) | None =>
  None end end end end end end end.

(** One value at the head of [s], and the text after it. *)
Fixpoint scan_once (fuel : nat) (s : string) : outcome error (value * string) :=
  match fuel with
  | O => OutOfFuel
  | S fuel' =>
      match s with
      | EmptyString => Raise JSONDecodeError
      | String c r =>
          if Ascii.eqb c Py.dquote then
            do '(body, rest) <- scan_string r;
            Done (Str body, rest)
          else if Ascii.eqb c Py.lbrace then
            match skip_ws r with
            | String c1 r1 =>
                if Ascii.eqb c1 Py.rbrace then Done (Object [], r1)
                else
                  do '(ms, rest) <- scan_members fuel' (String c1 r1);
                  Done (Object ms, rest)
            | EmptyString => Raise JSONDecodeError
            end
          else if Ascii.eqb c "[" then
            match skip_ws r with
            | String c1 r1 =>
                if Ascii.eqb c1 "]" then Done (Array [], r1)
                else
                  do '(vs, rest) <- scan_items fuel' (String c1 r1);
                  Done (Array vs, rest)
            | EmptyString => Raise JSONDecodeError
            end
          else
            match scan_word s with
            | Some (v, rest) => Done (v, rest)
            | None => Raise JSONDecodeError
            end
      end
  end

(** The members of an object, from the opening quote of a key up to and
    including the closing brace. *)
with scan_members (fuel : nat) (s : string)
    : outcome error (list (string * value) * string) :=
  match fuel with
  | O => OutOfFuel
  | S fuel' =>
      match s with
      | String c r =>
          if Ascii.eqb c Py.dquote then
            do '(key, r1) <- scan_string r;
            match skip_ws r1 with
            | String c2 r2 =>
                if Ascii.eqb c2 ":" then
                  do '(v, r3) <- scan_once fuel' (skip_ws r2);
                  match skip_ws r3 with
                  | String c4 r4 =>
                      if Ascii.eqb c4 Py.rbrace then Done ([(key, v)], r4)
                      else if Ascii.eqb c4 "," then
                        do '(ms, rest) <- scan_members fuel' (skip_ws r4);
                        Done ((key, v) :: ms, rest)
                      else Raise JSONDecodeError
                  | EmptyString => Raise JSONDecodeError
                  end
                else Raise JSONDecodeError
            | EmptyString => Raise JSONDecodeError
            end
          else Raise JSONDecodeError
      | EmptyString => Raise JSONDecodeError
      end
  end

(** The items of an array, from the first character of an item up to and
    including the closing bracket. *)
with scan_items (fuel : nat) (s : string)
    : outcome error (list value * string) :=
  match fuel with
  | O => OutOfFuel
  | S fuel' =>
      do '(v, r1) <- scan_once fuel' s;
      match skip_ws r1 with
      | String c2 r2 =>
          if Ascii.eqb c2 "]" then Done ([v], r2)
          else if Ascii.eqb c2 "," then
            do '(vs, rest) <- scan_items fuel' (skip_ws r2);
            Done (v :: vs, rest)
          else Raise JSONDecodeError
      | EmptyString => Raise JSONDecodeError
      end
  end.

(** [JSONDecoder.decode]: one value between optional white space, and
    nothing after it. *)
Definition decode (s : string) : outcome error value :=
  do '(v, rest) <- scan_once (S (2 * String.length s)) (skip_ws s);
  match skip_ws rest with
  | EmptyString => Done v
  | String _ _ => Raise JSONDecodeError
  end.

(** [json.loads] as [main] uses it: [None] when the text does not decode. *)
Definition loads (s : string) : option value :=
  match decode s with
  | Done v => Some v
  | _ => None
  end.

End Json.


(** ** [extract_district_number] ([tools/create_district_mapping.py])

    The helper of the two mapping scripts, for a contest name that is a
    string: [None] unless the name holds the marker, then group 1 of
    [re.search(r'District (\d+)', name)].  The characters of the model are
    the code points below 256, among which the class [\d] (Unicode decimal
    digits) holds the ten digits [0] to [9] only.  The helper is defined
    three times, twice in [create_district_mapping.py] and once in
    [create_precinct_mapping.py], where the empty name is tested first: it
    is without the marker, so that the three agree on every string. *)

Module District.

Definition marker : string := "State House of Representatives - District".

Definition prefix : string := "District ".

(** One attempt of the pattern at the head of [s]: the longest run of digits
    after the prefix, which must not be empty. *)
Definition match_here (s : string) : option string :=
  match Json.strip prefix s with
  | Some rest =>
      match Json.digits rest with
      | (String d ds, _) => Some (String d ds)
      | (EmptyString, _) => None
      end
  | None => None
  end.

(** [re.search]: the attempts are made from left to right, and the first
    that succeeds gives the result. *)
Fixpoint re_search (s : string) : option string :=
  match match_here s with
  | Some d => Some d
  | None =>
      match s with
      | EmptyString => None
      | String _ r => re_search r
      end
  end.

Definition extract_district_number (name : string) : option string :=
  if Py.find name marker 0 =? -1 then None else re_search name.

End District.

(** * Notions used in the statements *)

(** A call has an outcome of its own: a value or an exception. *)
Definition terminates {E A : Type} (o : outcome E A) : Prop :=
  match o with
  | OutOfFuel => False
  | _ => True
  end.

(** [sub] occurs in [content] at offset [p]: [content[p : p + len(sub)] == sub]. *)
Definition occurs_at (content sub : string) (p : Z) : Prop :=
  0 <= p /\ String.substring (Z.to_nat p) (String.length sub) content = sub.

(** No two offsets of [positions] are closer than [width]: matches of a
    literal of that length found by a search that resumes after the end of
    the previous match. *)
Definition overlap_free (width : Z) (positions : list Z) : Prop :=
  forall a b, a ∈ positions -> b ∈ positions -> a < b -> a + width <= b.

(** The nesting depth after the character [c], from the depth [d]. *)
Definition brace_step (c : ascii) (d : Z) : Z :=
  if Ascii.eqb c Py.lbrace then d + 1
  else if Ascii.eqb c Py.rbrace then d - 1
  else d.

(** The offset in [text] of the first character that brings a nesting of
    depth [d] down to zero. *)
Fixpoint closing (text : string) (d : Z) : option Z :=
  match text with
  | EmptyString => None
  | String c r =>
      if brace_step c d =? 0 then Some 0
      else option_map Z.succ (closing r (brace_step c d))
  end.

(** [content[s .. e]] is a balanced block: an opening brace at [s], and its
    matching closing brace at [e]. *)
Definition balanced_block (content : string) (s e : Z) : Prop :=
  0 <= s /\ Py.index content s = Done Py.lbrace /\
  closing (Py.slice content (s + 1) (Py.len content)) 1 = Some (e - s - 1).

(** [content[n:]], for an offset [n] that is a natural number. *)
Definition suffix (content : string) (n : nat) : string :=
  String.substring n (String.length content - n) content.

(** [s] is the offset of the last opening brace of [content] at or before
    [p], or [-1] when there is none. *)
Definition nearest_open (content : string) (p s : Z) : Prop :=
  (s = -1 /\
   forall i, 0 <= i <= p -> Py.index content i <> Done Py.lbrace) \/
  (0 <= s <= p /\ Py.index content s = Done Py.lbrace /\
   forall i, s < i <= p -> Py.index content i <> Done Py.lbrace).

(** No brace among the characters of [text]. *)
Fixpoint brace_free (text : string) : bool :=
  match text with
  | EmptyString => true
  | String c r =>
      negb (Ascii.eqb c Py.lbrace) && negb (Ascii.eqb c Py.rbrace) && brace_free r
  end.

(** The character [a] occurs in [text]. *)
Fixpoint has_char (a : ascii) (text : string) : bool :=
  match text with
  | EmptyString => false
  | String c r => Ascii.eqb c a || has_char a r
  end.

(** All the characters of [text] are digits. *)
Fixpoint all_digits (text : string) : bool :=
  match text with
  | EmptyString => true
  | String c r => Json.is_digit c && all_digits r
  end.

Section Tags.

Context {V : Type} (json_loads : string -> option V).

(** The pair of offsets an element of the output is tagged with. *)
Definition key (r : result V) : string * string := (first_line r, last_line r).

Definition key_of (s e : Z) : string * string := (Py.str s, Py.str e).

(** How many elements of [results] carry the tag [k]. *)
Definition tagged (k : string * string) (results : list (result V)) : nat :=
  length (filter (fun r => key r = k) results).

(** The invariant of [for pos in positions], after the offsets [seen]. *)
Record loop_inv (content : string) (seen : list Z)
    (st : list (result V) * gset (Z * Z)) : Prop := LoopInv {
  inv_nodup : NoDup (key <$> st.1);
  inv_results : forall r, r ∈ st.1 ->
    exists p c text s e,
      p ∈ seen /\
      extract_json_object content p = Done (Some (String c text), s, e) /\
      (s, e) ∈ st.2 /\
      first_line r = Py.str s /\ last_line r = Py.str e /\
      json_loads (String c text) = Some (data r);
  inv_seen : forall p c text s e,
    p ∈ seen ->
    extract_json_object content p = Done (Some (String c text), s, e) ->
    (s, e) ∈ st.2;
  inv_parsed : forall s e parsed,
    (s, e) ∈ st.2 ->
    json_loads (Py.slice content s (e + 1)) = Some parsed ->
    Result (Py.str s) (Py.str e) parsed ∈ st.1
}.

(** The offset [p] extracts to a non-empty text with the offsets [(s, e)]. *)
Definition extracts (content : string) (p s e : Z) : Prop :=
  exists c text,
    extract_json_object content p = Done (Some (String c text), s, e).

(** The element [r] is the decoded block of the offset [p], and [p] is the
    first of the offsets [seen] that extracts to that block. *)
Definition emitted_from (content : string) (seen : list Z) (p : Z)
    (r : result V) : Prop :=
  (exists c text s e,
      extract_json_object content p = Done (Some (String c text), s, e) /\
      first_line r = Py.str s /\ last_line r = Py.str e /\
      json_loads (String c text) = Some (data r)) /\
  (forall q s e,
      q ∈ seen -> extracts content q s e -> extracts content p s e -> p <= q).

End Tags.

(** * Properties *)

(** ** Strings *)

Lemma get_lt (s : string) (n : nat) :
  (n < String.length s)%nat -> exists c, String.get n s = Some c.
Proof.
  revert n. induction s as [|a s IH]; intros n Hn; simpl in *; [lia|].
  destruct n as [|n]; [eauto|]. apply IH. lia.
Qed.

Lemma get_ge (s : string) (n : nat) :
  (String.length s <= n)%nat -> String.get n s = None.
Proof.
  revert n. induction s as [|a s IH]; intros n Hn; simpl in *; [done|].
  destruct n as [|n]; [lia|]. apply IH. lia.
Qed.

Lemma substring_past_end (s : string) (n m : nat) :
  (String.length s <= n)%nat -> String.substring n m s = EmptyString.
Proof.
  revert n m. induction s as [|a s IH]; intros n m Hn; simpl in *.
  - by destruct n, m.
  - destruct n as [|n]; [lia|]. apply IH. lia.
Qed.

Lemma index_ge (n m : nat) (s1 s2 : string) :
  String.index n s1 s2 = Some m -> (n <= m)%nat.
Proof.
  revert n m. induction s2 as [|b s2 IH]; intros n m H; simpl in H.
  - destruct n; [lia|done].
  - destruct n as [|n]; [lia|].
    destruct (String.index n s1 s2) as [k|] eqn:E; [|done].
    injection H as <-. apply IH in E. lia.
Qed.

(** ** [str.find] *)

Lemma occurs_at_lt (content sub : string) (p : Z) :
  sub <> EmptyString -> occurs_at content sub p -> p < Py.len content.
Proof.
  intros Hne [Hp Hs]. unfold Py.len.
  destruct (decide (String.length content <= Z.to_nat p)%nat) as [Hle|Hgt]; [|lia].
  rewrite substring_past_end in Hs by done. congruence.
Qed.

Lemma find_found (content sub : string) (start m : Z) :
  0 <= start -> Py.find content sub start = m -> m <> -1 ->
  start <= m /\ occurs_at content sub m /\
  forall p, start <= p < m -> ~ occurs_at content sub p.
Proof.
  intros Hs Hf Hm. unfold Py.find in Hf.
  replace (start <? 0) with false in Hf by lia.
  destruct (String.index _ _ _) as [k|] eqn:E; [|lia]. subst m.
  pose proof (index_ge _ _ _ _ E) as Hge.
  split; [lia|split].
  - split; [lia|]. rewrite Nat2Z.id. by eapply index_correct1.
  - intros p Hp [_ Hocc].
    eapply (index_correct2 _ _ _ _ E (Z.to_nat p)); [lia|lia|done].
Qed.

Lemma find_not_found (content sub : string) (start : Z) :
  0 <= start -> sub <> EmptyString -> Py.find content sub start = -1 ->
  forall p, start <= p -> ~ occurs_at content sub p.
Proof.
  intros Hs Hne Hf p Hp [_ Hocc]. unfold Py.find in Hf.
  replace (start <? 0) with false in Hf by lia.
  destruct (String.index _ _ _) as [k|] eqn:E; [lia|].
  eapply (index_correct3 _ (Z.to_nat p) _ _ E); [done|lia|done].
Qed.

Lemma search_str_nonempty (target_id : string) : search_str target_id <> EmptyString.
Proof. done. Qed.

(** The loop started on the first match at or after [start] collects the
    matches at or after [start], in increasing order. *)
Lemma find_loop_spec (content search : string) (fuel : nat) :
  search <> EmptyString ->
  forall (start : Z) (acc : list Z),
    0 <= start ->
    (Z.to_nat (Py.len content - start) + 2 <= fuel)%nat ->
    exists l,
      find_loop fuel content search (Py.find content search start) acc
        = Done (acc ++ l)%list /\
      StronglySorted Z.lt l /\
      (forall p, p ∈ l <-> start <= p /\ occurs_at content search p).
Proof.
  intros Hne. induction fuel as [|fuel IH]; intros start acc Hs Hfuel; [lia|].
  simpl. destruct (Z.eqb_spec (Py.find content search start) (-1)) as [E|E].
  - exists []. rewrite app_nil_r. split; [done|]. split; [constructor|].
    intros p. split; [by intros ?%elem_of_nil|].
    intros [Hp Hocc]. by eapply find_not_found in Hocc.
  - destruct (find_found content search start _ Hs eq_refl E) as (Hge & Hocc & Hmin).
    set (m := Py.find content search start) in *.
    pose proof (occurs_at_lt _ _ _ Hne Hocc) as Hlt.
    destruct (IH (m + 1) (acc ++ [m])%list) as (l & Hl & Hsorted & Hmem); [lia|lia|].
    exists (m :: l). split; [|split].
    + rewrite Hl. by rewrite <- app_assoc.
    + constructor; [done|]. apply Forall_forall. intros x Hx.
      apply Hmem in Hx. lia.
    + intros p. rewrite elem_of_cons, Hmem. split.
      * intros [->|[Hp Hp']]; [done|]. split; [lia|done].
      * intros [Hp Hp']. destruct (decide (p = m)) as [->|Hpm]; [by left|].
        right. split; [|done].
        destruct (decide (p < m)); [|lia]. exfalso. by eapply (Hmin p).
Qed.

(** [find_all_positions] returns: the fuel it passes to its loop suffices,
    and the list it returns holds the offsets of the matches and no other,
    in increasing order. *)
Lemma find_all_positions_spec (content target_id : string) :
  exists positions,
    find_all_positions content target_id = Done positions /\
    StronglySorted Z.lt positions /\
    (forall p, p ∈ positions <-> occurs_at content (search_str target_id) p).
Proof.
  unfold find_all_positions.
  destruct (find_loop_spec content (search_str target_id)
              (S (S (String.length content))) (search_str_nonempty _) 0 [])
    as (l & Hl & Hsorted & Hmem); [lia|unfold Py.len; lia|].
  exists l. split; [done|]. split; [done|].
  intros p. rewrite Hmem. split; [by intros [_ ?]|].
  intros Hocc. split; [apply Hocc|done].
Qed.

(** ** Termination of the scans *)

Lemma index_terminates (s : string) (i : Z) : terminates (Py.index s i).
Proof.
  unfold Py.index. destruct (_ || _); [done|]. by destruct (String.get _ _).
Qed.

Lemma index_in_range (s : string) (i : Z) :
  0 <= i < Py.len s -> exists c, Py.index s i = Done c.
Proof.
  intros Hi. unfold Py.index.
  replace (i <? 0) with false by lia.
  replace ((i <? 0) || (Py.len s <=? i)) with false by lia.
  destruct (get_lt s (Z.to_nat i)) as [c ->]; [unfold Py.len in Hi; lia|eauto].
Qed.

Lemma index_past_end (s : string) (i : Z) :
  Py.len s <= i -> Py.index s i = Raise IndexError.
Proof.
  intros Hi. unfold Py.index.
  assert (0 <= Py.len s) by (unfold Py.len; lia).
  replace (i <? 0) with false by lia.
  by replace ((i <? 0) || (Py.len s <=? i)) with true by lia.
Qed.

Lemma backward_scan_terminates (content : string) (fuel : nat) :
  forall object_start,
    (Z.to_nat (object_start + 1) < fuel)%nat ->
    terminates (backward_scan fuel content object_start).
Proof.
  induction fuel as [|fuel IH]; intros object_start Hfuel; [lia|].
  simpl. destruct (0 <=? object_start) eqn:E; [|done].
  pose proof (index_terminates content object_start) as Hi.
  destruct (Py.index content object_start) as [c| |]; simpl; [|done|done].
  destruct (Ascii.eqb c Py.lbrace); [done|]. apply IH. lia.
Qed.

Lemma forward_scan_terminates (content : string) (fuel : nat) :
  forall object_end bracket_count,
    (Z.to_nat (Py.len content - object_end) < fuel)%nat ->
    terminates (forward_scan fuel content object_end bracket_count).
Proof.
  induction fuel as [|fuel IH]; intros object_end bracket_count Hfuel; [lia|].
  simpl. destruct (_ && _) eqn:E; [|done].
  pose proof (index_terminates content (object_end + 1)) as Hi.
  destruct (Py.index content (object_end + 1)) as [c| |]; simpl; [|done|done].
  apply IH. lia.
Qed.

Lemma extract_json_object_terminates (content : string) (start_pos : Z) :
  terminates (extract_json_object content start_pos).
Proof.
  unfold extract_json_object.
  pose proof (backward_scan_terminates content (backward_fuel start_pos)
                start_pos) as Hb.
  destruct (backward_scan _ _ _) as [object_start| |]; cbn [bind];
    [|done|apply Hb; unfold backward_fuel; lia].
  pose proof (forward_scan_terminates content (forward_fuel content start_pos)
                start_pos 1) as Hf.
  destruct (forward_scan _ _ _ _) as [[object_end bracket_count]| |]; cbn [bind];
    [|done|apply Hf; unfold forward_fuel; lia].
  destruct (bracket_count =? 0); exact I.
Qed.

(** ** What [extract_json_object] returns *)

(** The forward scan only stops on a bracket count of zero: it cannot
    leave through the test [object_end < len(content)], because the index
    [object_end + 1] is read before that test is made again. *)
Lemma forward_scan_stops_at_zero (content : string) (fuel : nat) :
  forall object_end bracket_count e k,
    object_end < Py.len content -> 0 < bracket_count ->
    forward_scan fuel content object_end bracket_count = Done (e, k) ->
    k = 0 /\ object_end < e < Py.len content.
Proof.
  induction fuel as [|fuel IH]; intros object_end bracket_count e k Hlt Hpos H;
    [done|].
  simpl in H.
  replace ((object_end <? Py.len content) && (0 <? bracket_count))
    with true in H by lia.
  destruct (Z_lt_le_dec (object_end + 1) (Py.len content)) as [Hin|Hout];
    [|by rewrite index_past_end in H by lia].
  destruct (Py.index content (object_end + 1)) as [c| |]; simpl in H; [|done..].
  set (count' := if Ascii.eqb c Py.lbrace then bracket_count + 1
                 else if Ascii.eqb c Py.rbrace then bracket_count - 1
                 else bracket_count) in H.
  assert (0 <= count') as Hc
    by (subst count'; destruct (Ascii.eqb c Py.lbrace), (Ascii.eqb c Py.rbrace); lia).
  destruct (decide (count' = 0)) as [Hz|Hnz].
  - destruct fuel as [|fuel']; [done|]. simpl in H.
    replace ((object_end + 1 <? Py.len content) && (0 <? count'))
      with false in H by lia.
    injection H as <- <-. lia.
  - apply IH in H; [lia|done|lia].
Qed.

(** The text returned is the slice between the two offsets returned. *)
Lemma extract_json_object_text (content : string) (start_pos : Z)
    (obj : string) (s e : Z) :
  extract_json_object content start_pos = Done (Some obj, s, e) ->
  obj = Py.slice content s (e + 1).
Proof.
  unfold extract_json_object.
  destruct (backward_scan _ _ _) as [object_start| |]; cbn [bind]; [|done..].
  destruct (forward_scan _ _ _ _) as [[object_end bracket_count]| |]; cbn [bind];
    [|done..].
  destruct (bracket_count =? 0); [|done]. by intros [= <- <- <-].
Qed.

(** The [not found] result is never returned. *)
Lemma extract_json_object_finds (content : string) (start_pos : Z) :
  forall s e, extract_json_object content start_pos <> Done (None, s, e).
Proof.
  intros s e. unfold extract_json_object.
  destruct (backward_scan _ _ _) as [object_start| |] eqn:Hb; cbn [bind];
    [|done..].
  destruct (forward_scan _ _ _ _) as [[object_end bracket_count]| |] eqn:Hf;
    cbn [bind]; [|done..].
  destruct (Z.eqb_spec bracket_count 0) as [|Hne]; [done|].
  exfalso. destruct (Z_lt_le_dec start_pos (Py.len content)) as [Hlt|Hge].
  - apply forward_scan_stops_at_zero in Hf; [|done|lia]. lia.
  - unfold backward_fuel in Hb. simpl in Hb.
    assert (0 <= Py.len content) by (unfold Py.len; lia).
    replace (0 <=? start_pos) with true in Hb by lia.
    by rewrite index_past_end in Hb by lia.
Qed.

(** [IndexError] is the only exception of the scans. *)
Lemma index_raises (s : string) (i : Z) (e : exn) :
  Py.index s i = Raise e -> e = IndexError.
Proof.
  unfold Py.index. destruct (_ || _); [by intros [= <-]|].
  destruct (String.get _ _); [done|by intros [= <-]].
Qed.

Lemma backward_scan_raises (content : string) (fuel : nat) (e : exn) :
  forall object_start,
    backward_scan fuel content object_start = Raise e -> e = IndexError.
Proof.
  induction fuel as [|fuel IH]; intros object_start; simpl; [done|].
  destruct (0 <=? object_start); [|done].
  destruct (Py.index content object_start) as [c| |] eqn:E; cbn [bind];
    [|intros [= <-]; by eapply index_raises|done].
  destruct (Ascii.eqb c Py.lbrace); [done|]. apply IH.
Qed.

Lemma forward_scan_raises (content : string) (fuel : nat) (e : exn) :
  forall object_end bracket_count,
    forward_scan fuel content object_end bracket_count = Raise e ->
    e = IndexError.
Proof.
  induction fuel as [|fuel IH]; intros object_end bracket_count; simpl; [done|].
  destruct (_ && _); [|done].
  destruct (Py.index content (object_end + 1)) as [c| |] eqn:E; cbn [bind];
    [|intros [= <-]; by eapply index_raises|done].
  apply IH.
Qed.

Lemma extract_json_object_raises (content : string) (start_pos : Z) (e : exn) :
  extract_json_object content start_pos = Raise e -> e = IndexError.
Proof.
  unfold extract_json_object.
  destruct (backward_scan _ _ _) as [object_start| |] eqn:Hb; cbn [bind];
    [|intros [= <-]; by eapply backward_scan_raises|done].
  destruct (forward_scan _ _ _ _) as [[object_end bracket_count]| |] eqn:Hf;
    cbn [bind]; [|intros [= <-]; by eapply forward_scan_raises|done].
  by destruct (bracket_count =? 0).
Qed.

(** ** Extraction of a balanced block *)

Lemma suffix_cons (content : string) (n : nat) (c : ascii) :
  String.get n content = Some c ->
  suffix content n = String c (suffix content (S n)).
Proof.
  unfold suffix. revert n. induction content as [|a content IH]; intros n H.
  - by destruct n.
  - destruct n as [|n]; simpl in H.
    + injection H as ->. simpl. by rewrite Nat.sub_0_r.
    + simpl. apply IH in H. by rewrite H.
Qed.

Lemma suffix_past_end (content : string) (n : nat) :
  (String.length content <= n)%nat -> suffix content n = EmptyString.
Proof. intros H. by apply substring_past_end. Qed.

Lemma clip_inside (n i : Z) : 0 <= i <= n -> Py.clip n i = i.
Proof.
  intros H. unfold Py.clip. cbv zeta.
  replace (i <? 0) with false by lia. cbv iota.
  replace (i <? 0) with false by lia.
  replace (n <? i) with false by lia. done.
Qed.

Lemma clip_beyond (n i : Z) : 0 <= n < i -> Py.clip n i = n.
Proof.
  intros H. unfold Py.clip. cbv zeta.
  replace (i <? 0) with false by lia. cbv iota.
  replace (i <? 0) with false by lia.
  replace (n <? i) with true by lia. done.
Qed.

Lemma slice_suffix (content : string) (a : Z) :
  0 <= a -> Py.slice content a (Py.len content) = suffix content (Z.to_nat a).
Proof.
  intros Ha. unfold Py.slice, suffix.
  assert (0 <= Py.len content) as Hlen by (unfold Py.len; lia).
  rewrite (clip_inside _ (Py.len content)) by lia.
  destruct (Z_lt_le_dec (Py.len content) a) as [Hgt|Hle].
  - rewrite clip_beyond by lia.
    rewrite !substring_past_end by (unfold Py.len in *; lia). done.
  - rewrite clip_inside by lia. f_equal. unfold Py.len. lia.
Qed.

Lemma index_get (content : string) (i : Z) (c : ascii) :
  0 <= i -> String.get (Z.to_nat i) content = Some c ->
  Py.index content i = Done c.
Proof.
  intros Hi Hget. unfold Py.index.
  assert (Z.to_nat i < String.length content)%nat as Hlt.
  { destruct (decide (Z.to_nat i < String.length content)%nat); [done|].
    rewrite get_ge in Hget by lia. done. }
  replace (i <? 0) with false by lia.
  replace ((i <? 0) || (Py.len content <=? i)) with false
    by (unfold Py.len; lia).
  by rewrite Hget.
Qed.

(** The forward scan computes [closing] on the text after [object_end];
    where [closing] finds nothing, the scan raises [IndexError]. *)
Lemma forward_scan_closing (content : string) (fuel : nat) :
  forall object_end bracket_count,
    -1 <= object_end < Py.len content -> 0 < bracket_count ->
    (Z.to_nat (Py.len content - object_end) < fuel)%nat ->
    forward_scan fuel content object_end bracket_count =
      match closing (suffix content (Z.to_nat (object_end + 1))) bracket_count with
      | Some j => Done (object_end + 1 + j, 0)
      | None => Raise IndexError
      end.
Proof.
  induction fuel as [|fuel IH]; intros object_end bracket_count Hoe Hk Hfuel;
    [lia|].
  simpl.
  replace ((object_end <? Py.len content) && (0 <? bracket_count))
    with true by lia.
  destruct (Z_lt_le_dec (object_end + 1) (Py.len content)) as [Hin|Hout].
  - destruct (get_lt content (Z.to_nat (object_end + 1))) as [c Hc];
      [unfold Py.len in Hin; lia|].
    rewrite (index_get _ _ c) by (done || lia). cbn [bind].
    rewrite (suffix_cons _ _ _ Hc). simpl closing.
    change (if Ascii.eqb c Py.lbrace then bracket_count + 1
            else if Ascii.eqb c Py.rbrace then bracket_count - 1
            else bracket_count) with (brace_step c bracket_count).
    assert (0 <= brace_step c bracket_count) as Hstep
      by (unfold brace_step;
          destruct (Ascii.eqb c Py.lbrace), (Ascii.eqb c Py.rbrace); lia).
    destruct (Z.eqb_spec (brace_step c bracket_count) 0) as [Hz|Hnz].
    + rewrite Hz. destruct fuel as [|fuel']; [lia|]. simpl.
      replace ((object_end + 1 <? Py.len content) && (0 <? 0)) with false by lia.
      f_equal. f_equal. lia.
    + rewrite IH by lia.
      replace (Z.to_nat (object_end + 1 + 1))
        with (S (Z.to_nat (object_end + 1))) by lia.
      destruct (closing _ _) as [j|]; simpl; [|done].
      f_equal. f_equal. lia.
  - rewrite index_past_end by lia. cbn [bind].
    rewrite suffix_past_end by (unfold Py.len in Hout; lia). done.
Qed.

(** The backward scan stops at an opening brace at [s] when no opening
    brace stands between [s] and the offset it starts from. *)
Lemma backward_scan_found (content : string) (s : Z) (fuel : nat) :
  0 <= s -> Py.index content s = Done Py.lbrace ->
  forall p,
    s <= p ->
    (forall i, s < i <= p ->
       exists c, Py.index content i = Done c /\ Ascii.eqb c Py.lbrace = false) ->
    (Z.to_nat (p - s) < fuel)%nat ->
    backward_scan fuel content p = Done s.
Proof.
  intros Hs Hbrace. induction fuel as [|fuel IH]; intros p Hp Hfree Hfuel; [lia|].
  simpl. replace (0 <=? p) with true by lia.
  destruct (decide (p = s)) as [->|Hne].
  - rewrite Hbrace. cbn [bind]. by rewrite Ascii.eqb_refl.
  - destruct (Hfree p) as (c & Hc & Hl); [lia|].
    rewrite Hc. cbn [bind]. rewrite Hl.
    apply IH; [lia| |lia]. intros i Hi. apply Hfree. lia.
Qed.

Lemma brace_free_get (text : string) (j : nat) (c : ascii) :
  brace_free text = true -> String.get j text = Some c ->
  Ascii.eqb c Py.lbrace = false /\ Ascii.eqb c Py.rbrace = false.
Proof.
  revert j. induction text as [|a text IH]; intros j Hfree Hget; [done|].
  simpl in Hfree. apply andb_prop in Hfree as [Ha Hfree].
  apply andb_prop in Ha as [Hl Hr].
  destruct j as [|j]; simpl in Hget.
  - injection Hget as <-. split; by apply negb_true_iff.
  - by eapply IH.
Qed.

(** The characters of [content[a:b]], for offsets inside the document. *)
Lemma slice_get (content : string) (a b i : Z) :
  0 <= a <= i -> i < b <= Py.len content ->
  String.get (Z.to_nat (i - a)) (Py.slice content a b)
    = String.get (Z.to_nat i) content.
Proof.
  intros Ha Hb. unfold Py.slice. rewrite !clip_inside by lia.
  rewrite substring_correct1 by lia. f_equal. lia.
Qed.

Lemma closing_skip (content : string) (k : nat) :
  forall (n : nat) (x : Z),
    closing (suffix content n) 1 = Some x ->
    (forall j, (j < k)%nat ->
       exists c, String.get (n + j) content = Some c /\ brace_step c 1 = 1) ->
    closing (suffix content (n + k)) 1 = Some (x - Z.of_nat k).
Proof.
  induction k as [|k IH]; intros n x Hclose Hfree.
  - rewrite Nat.add_0_r. rewrite Hclose. f_equal. lia.
  - destruct (Hfree 0%nat) as (c & Hc & Hstep); [lia|].
    rewrite Nat.add_0_r in Hc. rewrite (suffix_cons _ _ _ Hc) in Hclose.
    simpl in Hclose. rewrite Hstep in Hclose. simpl in Hclose.
    destruct (closing (suffix content (S n)) 1) as [y|] eqn:Hy; [|done].
    injection Hclose as <-.
    replace (n + S k)%nat with (S n + k)%nat by lia.
    rewrite (IH (S n) y Hy).
    + f_equal. lia.
    + intros j Hj. destruct (Hfree (S j)) as (c' & Hc' & Hstep'); [lia|].
      exists c'. split; [|done]. rewrite <- Hc'. f_equal. lia.
Qed.

Lemma closing_lt (text : string) :
  forall d j, closing text d = Some j -> 0 <= j < Z.of_nat (String.length text).
Proof.
  induction text as [|c text IH]; intros d j H; simpl in H; [done|].
  destruct (brace_step c d =? 0).
  - injection H as <-. simpl. lia.
  - destruct (closing text (brace_step c d)) as [y|] eqn:Hy; [|done].
    injection H as <-. apply IH in Hy. simpl. lia.
Qed.

Lemma suffix_length (content : string) (n : nat) :
  (String.length (suffix content n) <= String.length content - n)%nat.
Proof.
  unfold suffix. revert n. induction content as [|a content IH]; intros n.
  - by destruct n.
  - destruct n as [|n]; simpl.
    + specialize (IH 0%nat). rewrite Nat.sub_0_r in IH. lia.
    + apply IH.
Qed.

(** From an offset [p] of a balanced block that no brace separates from the
    opening brace of the block, the block is what is extracted. *)
Lemma extract_json_object_block (content : string) (s e p : Z) :
  balanced_block content s e -> s <= p < e ->
  brace_free (Py.slice content (s + 1) (p + 1)) = true ->
  extract_json_object content p
    = Done (Some (Py.slice content s (e + 1)), s, e).
Proof.
  intros (Hs & Hopen & Hclose) Hp Hfree.
  rewrite slice_suffix in Hclose by lia.
  pose proof (closing_lt _ _ _ Hclose) as Hj.
  pose proof (suffix_length content (Z.to_nat (s + 1))) as Hlen.
  assert (e < Py.len content) as He by (unfold Py.len; lia).
  assert (forall i, s < i <= p ->
            exists c, String.get (Z.to_nat i) content = Some c /\
                      Ascii.eqb c Py.lbrace = false /\
                      Ascii.eqb c Py.rbrace = false) as Hchars.
  { intros i Hi.
    destruct (get_lt content (Z.to_nat i)) as [c Hc]; [unfold Py.len in He; lia|].
    exists c. split; [done|].
    apply (brace_free_get _ (Z.to_nat (i - (s + 1))) c Hfree).
    rewrite slice_get by lia. done. }
  unfold extract_json_object.
  rewrite (backward_scan_found content s) ; try done; try lia.
  2:{ intros i Hi. destruct (Hchars i Hi) as (c & Hc & Hl & _).
      exists c. split; [|done]. apply index_get; [lia|done]. }
  2:{ unfold backward_fuel. lia. }
  cbn [bind].
  rewrite forward_scan_closing by (unfold forward_fuel; lia).
  pose proof (closing_skip content (Z.to_nat (p - s)) (Z.to_nat (s + 1))
                _ Hclose) as Hskip.
  replace (Z.to_nat (s + 1) + Z.to_nat (p - s))%nat
    with (Z.to_nat (p + 1)) in Hskip by lia.
  rewrite Hskip.
  - cbn [bind]. simpl.
    replace (p + 1 + (e - s - 1 - Z.of_nat (Z.to_nat (p - s)))) with e by lia.
    done.
  - intros j Hj'.
    destruct (Hchars (s + 1 + Z.of_nat j)) as (c & Hc & Hl & Hr); [lia|].
    exists c. split.
    + rewrite <- Hc. f_equal. lia.
    + unfold brace_step. by rewrite Hl, Hr.
Qed.

(** ** The decoder *)

Lemma skip_ws_length (s : string) :
  (String.length (Json.skip_ws s) <= String.length s)%nat.
Proof.
  induction s as [|c s IH]; simpl; [done|].
  destruct (Json.is_ws c); simpl; lia.
Qed.

Lemma scan_string_spec (n : nat) :
  forall s, (String.length s <= n)%nat ->
    terminates (Json.scan_string s) /\
    forall body rest, Json.scan_string s = Done (body, rest) ->
      (String.length rest < String.length s)%nat.
Proof.
  induction n as [|n IH]; intros s Hn.
  { destruct s; simpl in *; [|lia]. split; [done|]. by intros. }
  assert (forall r, (String.length r <= n)%nat ->
            forall (f : string -> string),
              terminates (do '(body, rest) <- Json.scan_string r;
                          Done (f body, rest)) /\
              forall body rest,
                (do '(body, rest) <- Json.scan_string r; Done (f body, rest))
                  = Done (body, rest) ->
                (String.length rest < String.length r)%nat) as Hrec.
  { intros r Hr f. destruct (IH r Hr) as [Ht Hlt].
    destruct (Json.scan_string r) as [[b rest']| |]; cbn [bind]; [|done..].
    split; [done|]. intros body rest [= _ <-]. by eapply Hlt. }
  destruct s as [|c r]; simpl in *; [split; [done|by intros]|].
  destruct (Ascii.eqb c Py.dquote).
  { split; [done|]. intros body rest [= _ <-]. lia. }
  destruct (Ascii.eqb c Json.backslash).
  - destruct r as [|e r1]; [split; [done|by intros]|]. simpl in Hn.
    destruct (Json.is_simple_escape e).
    { destruct (Hrec r1 ltac:(lia) (fun body => String c (String e body)))
        as [Ht Hlt].
      split; [done|]. intros body rest H. apply Hlt in H. simpl. lia. }
    destruct (Ascii.eqb e "u"); [|split; [done|by intros]].
    destruct r1 as [|h1 [|h2 [|h3 [|h4 r2]]]]; try (split; [done|by intros]).
    destruct (_ && _); [|split; [done|by intros]]. simpl in Hn.
    destruct (Hrec r2 ltac:(lia)
                (fun body => String c (String e (String h1 (String h2
                               (String h3 (String h4 body)))))))
      as [Ht Hlt].
    split; [done|]. intros body rest H. apply Hlt in H. simpl. lia.
  - destruct (Nat.ltb _ _); [split; [done|by intros]|].
    destruct (Hrec r ltac:(lia) (fun body => String c body)) as [Ht Hlt].
    split; [done|]. intros body rest H. apply Hlt in H. lia.
Qed.

Lemma scan_string_terminates (s : string) : terminates (Json.scan_string s).
Proof. by apply (scan_string_spec (String.length s)). Qed.

Lemma scan_string_shorter (s body rest : string) :
  Json.scan_string s = Done (body, rest) ->
  (String.length rest < String.length s)%nat.
Proof. by apply (scan_string_spec (String.length s)). Qed.

Lemma digits_length (s : string) :
  (String.length (Json.digits s).2 <= String.length s)%nat.
Proof.
  induction s as [|c s IH]; simpl; [done|].
  destruct (Json.is_digit c); [|simpl; lia].
  destruct (Json.digits s) as [d rest]. simpl in *. lia.
Qed.

Lemma scan_fraction_length (s : string) :
  (String.length (Json.scan_fraction s).2 <= String.length s)%nat.
Proof.
  destruct s as [|c r]; simpl; [done|].
  destruct (Ascii.eqb c "."); [|simpl; lia].
  pose proof (digits_length r) as H.
  destruct (Json.digits r) as [[|d ds] rest]; simpl in *; lia.
Qed.

Lemma scan_exponent_length (s : string) :
  (String.length (Json.scan_exponent s).2 <= String.length s)%nat.
Proof.
  destruct s as [|c r]; simpl; [done|].
  destruct (_ || _); [|simpl; lia].
  assert (forall r1, (String.length r1 <= String.length r)%nat ->
            forall sign,
              (String.length
                 (match Json.digits r1 with
                  | (String d ds, rest) =>
                      (String c (sign +:+ String d ds), rest)
                  | (EmptyString, _) => (EmptyString, String c r)
                  end).2 <= S (String.length r))%nat) as Hd.
  { intros r1 Hr1 sign. pose proof (digits_length r1) as H.
    destruct (Json.digits r1) as [[|d ds] rest]; simpl in *; lia. }
  destruct r as [|g r']; [apply Hd; simpl; lia|].
  destruct (_ || _); apply Hd; simpl; lia.
Qed.

Lemma scan_number_shorter (s lexeme rest : string) :
  Json.scan_number s = Some (lexeme, rest) ->
  (String.length rest < String.length s)%nat.
Proof.
  unfold Json.scan_number.
  assert (forall s1, (String.length s1 <= String.length s)%nat ->
            forall sign,
              match s1 with
              | String c r =>
                  if Json.is_digit c then
                    let '(int, r1) :=
                      if Ascii.eqb c "0" then (String c EmptyString, r)
                      else let '(d, rest) := Json.digits r in (String c d, rest) in
                    let '(frac, r2) := Json.scan_fraction r1 in
                    let '(exp, r3) := Json.scan_exponent r2 in
                    Some (sign +:+ int +:+ frac +:+ exp, r3)
                  else None
              | EmptyString => None
              end = Some (lexeme, rest) ->
              (String.length rest < String.length s)%nat) as Hrest.
  { intros s1 Hs1 sign. destruct s1 as [|c r]; [done|].
    destruct (Json.is_digit c); [|done]. simpl in Hs1.
    assert (forall int r1, (String.length r1 <= String.length r)%nat ->
              (let '(frac, r2) := Json.scan_fraction r1 in
               let '(exp, r3) := Json.scan_exponent r2 in
               Some (sign +:+ int +:+ frac +:+ exp, r3)) = Some (lexeme, rest) ->
              (String.length rest < String.length s)%nat) as Htail.
    { intros int r1 Hr1. pose proof (scan_fraction_length r1) as Hf.
      destruct (Json.scan_fraction r1) as [frac r2].
      pose proof (scan_exponent_length r2) as He.
      destruct (Json.scan_exponent r2) as [exp r3]. simpl in *.
      intros [= _ <-]. lia. }
    destruct (Ascii.eqb c "0"); [by apply Htail|].
    pose proof (digits_length r) as Hd.
    destruct (Json.digits r) as [d rest']. by apply Htail. }
  destruct s as [|c r]; [done|].
  destruct (Ascii.eqb c "-").
  - apply (Hrest r ltac:(simpl; lia) (String c EmptyString)).
  - apply (Hrest (String c r) ltac:(simpl; lia) EmptyString).
Qed.

Lemma strip_length (p s r : string) :
  Json.strip p s = Some r ->
  (String.length r + String.length p = String.length s)%nat.
Proof.
  revert s. induction p as [|a p IH]; intros s H; simpl in H.
  - injection H as <-. simpl. lia.
  - destruct s as [|b s]; [done|]. destruct (Ascii.eqb a b); [|done].
    apply IH in H. simpl. lia.
Qed.

Lemma scan_word_shorter (s rest : string) (v : Json.value) :
  Json.scan_word s = Some (v, rest) ->
  (String.length rest < String.length s)%nat.
Proof.
  unfold Json.scan_word.
  repeat match goal with
  | |- context [Json.strip ?p s] =>
      let E := fresh "E" in
      destruct (Json.strip p s) eqn:E;
        [apply strip_length in E; simpl in E; intros [= _ <-]; lia|]
  | |- context [Json.scan_number s] =>
      let E := fresh "E" in
      destruct (Json.scan_number s) as [[? ?]|] eqn:E;
        [apply scan_number_shorter in E; intros [= _ <-]; lia|]
  end.
  done.
Qed.

(** Every scanner consumes at least one character of its text. *)
Lemma scan_progress (fuel : nat) :
  (forall s v rest, Json.scan_once fuel s = Done (v, rest) ->
     (String.length rest < String.length s)%nat) /\
  (forall s ms rest, Json.scan_members fuel s = Done (ms, rest) ->
     (String.length rest < String.length s)%nat) /\
  (forall s vs rest, Json.scan_items fuel s = Done (vs, rest) ->
     (String.length rest < String.length s)%nat).
Proof.
  induction fuel as [|fuel (IHonce & IHmembers & IHitems)];
    [by repeat split|].
  split; [|split].
  - intros s v rest. simpl. destruct s as [|c r]; [done|].
    destruct (Ascii.eqb c Py.dquote).
    { destruct (Json.scan_string r) as [[body rest']| |] eqn:E; cbn [bind];
        [|done..].
      intros [= _ <-]. apply scan_string_shorter in E. simpl. lia. }
    pose proof (skip_ws_length r) as Hws.
    destruct (Ascii.eqb c Py.lbrace).
    { destruct (Json.skip_ws r) as [|c1 r1]; [done|]. simpl in Hws.
      destruct (Ascii.eqb c1 Py.rbrace).
      { intros [= _ <-]. simpl. lia. }
      destruct (Json.scan_members fuel (String c1 r1)) as [[ms rest']| |] eqn:E;
        cbn [bind]; [|done..].
      intros [= _ <-]. apply IHmembers in E. simpl in *. lia. }
    destruct (Ascii.eqb c "[").
    { destruct (Json.skip_ws r) as [|c1 r1]; [done|]. simpl in Hws.
      destruct (Ascii.eqb c1 "]").
      { intros [= _ <-]. simpl. lia. }
      destruct (Json.scan_items fuel (String c1 r1)) as [[vs rest']| |] eqn:E;
        cbn [bind]; [|done..].
      intros [= _ <-]. apply IHitems in E. simpl in *. lia. }
    destruct (Json.scan_word (String c r)) as [[v' rest']|] eqn:E; [|done].
    intros [= _ <-]. by apply scan_word_shorter in E.
  - intros s ms rest. simpl. destruct s as [|c r]; [done|].
    destruct (Ascii.eqb c Py.dquote); [|done].
    destruct (Json.scan_string r) as [[key r1]| |] eqn:Ekey; cbn [bind];
      [|done..].
    apply scan_string_shorter in Ekey.
    pose proof (skip_ws_length r1) as Hws1.
    destruct (Json.skip_ws r1) as [|c2 r2]; [done|]. simpl in Hws1.
    destruct (Ascii.eqb c2 ":"); [|done].
    pose proof (skip_ws_length r2) as Hws2.
    destruct (Json.scan_once fuel (Json.skip_ws r2)) as [[v r3]| |] eqn:Ev;
      cbn [bind]; [|done..].
    apply IHonce in Ev. pose proof (skip_ws_length r3) as Hws3.
    destruct (Json.skip_ws r3) as [|c4 r4]; [done|]. simpl in Hws3.
    destruct (Ascii.eqb c4 Py.rbrace).
    { intros [= _ <-]. simpl. lia. }
    destruct (Ascii.eqb c4 ","); [|done].
    pose proof (skip_ws_length r4) as Hws4.
    destruct (Json.scan_members fuel (Json.skip_ws r4)) as [[ms' rest']| |] eqn:E;
      cbn [bind]; [|done..].
    intros [= _ <-]. apply IHmembers in E. simpl. lia.
  - intros s vs rest. simpl.
    destruct (Json.scan_once fuel s) as [[v r1]| |] eqn:Ev; cbn [bind];
      [|done..].
    apply IHonce in Ev. pose proof (skip_ws_length r1) as Hws1.
    destruct (Json.skip_ws r1) as [|c2 r2]; [done|]. simpl in Hws1.
    destruct (Ascii.eqb c2 "]").
    { intros [= _ <-]. lia. }
    destruct (Ascii.eqb c2 ","); [|done].
    pose proof (skip_ws_length r2) as Hws2.
    destruct (Json.scan_items fuel (Json.skip_ws r2)) as [[vs' rest']| |] eqn:E;
      cbn [bind]; [|done..].
    intros [= _ <-]. apply IHitems in E. lia.
Qed.

(** Two units of fuel for each character are enough. *)
Lemma scan_terminates (fuel : nat) :
  (forall s, (2 * String.length s < fuel)%nat ->
     terminates (Json.scan_once fuel s)) /\
  (forall s, (2 * String.length s < fuel)%nat ->
     terminates (Json.scan_members fuel s)) /\
  (forall s, (2 * String.length s + 1 < fuel)%nat ->
     terminates (Json.scan_items fuel s)).
Proof.
  induction fuel as [|fuel (IHonce & IHmembers & IHitems)];
    [repeat split; intros; lia|].
  destruct (scan_progress fuel) as (Ponce & Pmembers & Pitems).
  split; [|split].
  - intros s Hfuel. simpl. destruct s as [|c r]; [done|]. simpl in Hfuel.
    destruct (Ascii.eqb c Py.dquote).
    { pose proof (scan_string_terminates r) as Ht.
      by destruct (Json.scan_string r) as [[body rest']| |]. }
    pose proof (skip_ws_length r) as Hws.
    destruct (Ascii.eqb c Py.lbrace).
    { destruct (Json.skip_ws r) as [|c1 r1]; [done|].
      destruct (Ascii.eqb c1 Py.rbrace); [done|].
      pose proof (IHmembers (String c1 r1) ltac:(lia)) as Ht.
      by destruct (Json.scan_members fuel (String c1 r1)) as [[ms rest']| |]. }
    destruct (Ascii.eqb c "[").
    { destruct (Json.skip_ws r) as [|c1 r1]; [done|].
      destruct (Ascii.eqb c1 "]"); [done|].
      pose proof (IHitems (String c1 r1) ltac:(lia)) as Ht.
      by destruct (Json.scan_items fuel (String c1 r1)) as [[vs rest']| |]. }
    by destruct (Json.scan_word (String c r)) as [[v' rest']|].
  - intros s Hfuel. simpl. destruct s as [|c r]; [done|]. simpl in Hfuel.
    destruct (Ascii.eqb c Py.dquote); [|done].
    pose proof (scan_string_terminates r) as Ht.
    destruct (Json.scan_string r) as [[key r1]| |] eqn:Ekey; cbn [bind];
      [|done..].
    apply scan_string_shorter in Ekey.
    pose proof (skip_ws_length r1) as Hws1.
    destruct (Json.skip_ws r1) as [|c2 r2]; [done|]. simpl in Hws1.
    destruct (Ascii.eqb c2 ":"); [|done].
    pose proof (skip_ws_length r2) as Hws2.
    pose proof (IHonce (Json.skip_ws r2) ltac:(lia)) as Hv.
    destruct (Json.scan_once fuel (Json.skip_ws r2)) as [[v r3]| |] eqn:Ev;
      cbn [bind]; [|done..].
    apply Ponce in Ev. pose proof (skip_ws_length r3) as Hws3.
    destruct (Json.skip_ws r3) as [|c4 r4]; [done|]. simpl in Hws3.
    destruct (Ascii.eqb c4 Py.rbrace); [done|].
    destruct (Ascii.eqb c4 ","); [|done].
    pose proof (skip_ws_length r4) as Hws4.
    pose proof (IHmembers (Json.skip_ws r4) ltac:(lia)) as Hm.
    by destruct (Json.scan_members fuel (Json.skip_ws r4)) as [[ms' rest']| |].
  - intros s Hfuel. simpl.
    pose proof (IHonce s ltac:(lia)) as Hv.
    destruct (Json.scan_once fuel s) as [[v r1]| |] eqn:Ev; cbn [bind];
      [|done..].
    apply Ponce in Ev. pose proof (skip_ws_length r1) as Hws1.
    destruct (Json.skip_ws r1) as [|c2 r2]; [done|]. simpl in Hws1.
    destruct (Ascii.eqb c2 "]"); [done|].
    destruct (Ascii.eqb c2 ","); [|done].
    pose proof (skip_ws_length r2) as Hws2.
    pose proof (IHitems (Json.skip_ws r2) ltac:(lia)) as Hi.
    by destruct (Json.scan_items fuel (Json.skip_ws r2)) as [[vs' rest']| |].
Qed.

(** [json.loads] returns a value or raises: the decoder never runs out of
    fuel. *)
Lemma decode_terminates (s : string) : terminates (Json.decode s).
Proof.
  unfold Json.decode. pose proof (skip_ws_length s) as Hws.
  destruct (scan_terminates (S (2 * String.length s))) as (Honce & _ & _).
  pose proof (Honce (Json.skip_ws s) ltac:(lia)) as Ht.
  destruct (Json.scan_once _ _) as [[v rest]| |]; cbn [bind]; [|done..].
  by destruct (Json.skip_ws rest).
Qed.

(** ** [str] on integers *)

Lemma str_inj (a b : Z) : Py.str a = Py.str b -> a = b.
Proof.
  unfold Py.str. intros H.
  assert (forall n, NilZero.int_of_string (NilZero.string_of_int (Z.to_int n))
                    = Some (Z.to_int n)) as Hisi.
  { intros n. apply NilZero.isi; destruct n; simpl; try done;
      intros [= Hnil]; by apply DecimalPos.Unsigned.to_uint_nonnil in Hnil. }
  apply DecimalZ.to_int_inj.
  pose proof (Hisi a) as Ha. rewrite H, Hisi in Ha. congruence.
Qed.

(** ** The driving loop *)

Section MainProperties.

Context {V : Type} (json_loads : string -> option V).

Lemma key_of_inj (s e s' e' : Z) : key_of s e = key_of s' e' -> (s, e) = (s', e').
Proof. intros [= ?%str_inj ?%str_inj]. congruence. Qed.

Lemma tagged_none (k : string * string) (results : list (result V)) :
  (forall r, r ∈ results -> key r <> k) -> tagged k results = 0%nat.
Proof.
  unfold tagged. induction results as [|r results IH]; intros H; [done|].
  rewrite filter_cons. destruct (decide (key r = k)) as [E|_].
  - exfalso. eapply H; [left|done].
  - apply IH. intros r' Hr'. apply H. by right.
Qed.

Lemma tagged_one (r : result V) (results : list (result V)) :
  NoDup (key <$> results) -> r ∈ results -> tagged (key r) results = 1%nat.
Proof.
  unfold tagged. induction results as [|r' results IH]; intros Hnd Hin.
  - by apply elem_of_nil in Hin.
  - rewrite fmap_cons in Hnd. apply NoDup_cons in Hnd as [Hnotin Hnd].
    rewrite filter_cons. apply elem_of_cons in Hin as [->|Hin].
    + rewrite decide_True by done. simpl. f_equal.
      apply tagged_none. intros r Hr E. apply Hnotin.
      rewrite <- E. by apply list_elem_of_fmap_2.
    + destruct (decide (key r' = key r)) as [E|_]; [|by apply IH].
      exfalso. apply Hnotin. rewrite E. by apply list_elem_of_fmap_2.
Qed.

Lemma loop_inv_init (content : string) : loop_inv json_loads content [] ([], ∅).
Proof.
  split; simpl.
  - constructor.
  - by intros r ?%elem_of_nil.
  - by intros p c text s e ?%elem_of_nil.
  - intros s e parsed H. by apply not_elem_of_empty in H.
Qed.

Lemma visit_terminates (content : string)
    (st : list (result V) * gset (Z * Z)) (pos : Z) :
  terminates (visit json_loads content st pos).
Proof.
  unfold visit. destruct st as [results found_objects].
  pose proof (extract_json_object_terminates content pos) as He.
  destruct (extract_json_object content pos) as [[[obj s] e]| |]; cbn [bind];
    [|done..].
  destruct obj as [[|c text]|]; [done| |done].
  destruct (decide _); [done|]. by destruct (json_loads _).
Qed.

Lemma for_positions_terminates (content : string) (positions : list Z) :
  forall st, terminates (for_positions json_loads content positions st).
Proof.
  induction positions as [|pos positions IH]; intros st; simpl; [done|].
  pose proof (visit_terminates content st pos) as Hv.
  destruct (visit json_loads content st pos) as [st'| |]; cbn [bind]; [|done..].
  apply IH.
Qed.

(** [main] always prints something. *)
Lemma main_returns (f : file) (filename id : string) :
  exists out, main json_loads f filename id = Done out.
Proof.
  destruct f as [content| |message]; simpl; [|eauto..].
  unfold main_try.
  destruct (find_all_positions_spec content id) as (positions & -> & _).
  cbn [bind]. destruct positions as [|p positions]; [eauto|].
  pose proof (for_positions_terminates content (p :: positions) ([], ∅)) as Ht.
  destruct (for_positions _ _ _ _) as [[results found]| |]; cbn [bind];
    [eauto|eauto|done].
Qed.

Lemma loop_inv_seen_more (content : string) (seen : list Z) (pos : Z)
    (st : list (result V) * gset (Z * Z)) :
  loop_inv json_loads content seen st ->
  (forall c text s e,
      extract_json_object content pos = Done (Some (String c text), s, e) ->
      (s, e) ∈ st.2) ->
  loop_inv json_loads content (seen ++ [pos]) st.
Proof.
  intros [Hnd Hres Hseen Hparsed] Hpos. split; [done| |  |done].
  - intros r Hr. destruct (Hres r Hr) as (p & c & text & s & e & Hp & H).
    exists p, c, text, s, e. split; [|done]. apply elem_of_app. by left.
  - intros p c text s e [Hp|Hp%list_elem_of_singleton]%elem_of_app He.
    + by eapply Hseen.
    + subst p. by eapply Hpos.
Qed.

(** One turn of the loop keeps the invariant. *)
Lemma visit_inv (content : string) (seen : list Z) (pos : Z)
    (st st' : list (result V) * gset (Z * Z)) :
  loop_inv json_loads content seen st ->
  visit json_loads content st pos = Done st' ->
  loop_inv json_loads content (seen ++ [pos]) st'.
Proof.
  intros Hinv. unfold visit. destruct st as [results found_objects].
  destruct (extract_json_object content pos) as [[[obj s] e]| |] eqn:He;
    cbn [bind]; [|done..].
  destruct obj as [[|c text]|].
  { intros [= <-]. apply loop_inv_seen_more; [done|].
    intros c t s' e' H. by rewrite He in H. }
  2:{ intros [= <-]. apply loop_inv_seen_more; [done|].
      intros c t s' e' H. by rewrite He in H. }
  destruct (decide ((s, e) ∈ found_objects)) as [Hin|Hnotin].
  { intros [= <-]. apply loop_inv_seen_more; [done|].
    intros c' text' s' e' H. rewrite He in H. by injection H as _ _ <- <-. }
  pose proof (extract_json_object_text _ _ _ _ _ He) as Htext.
  destruct Hinv as [Hnd Hres Hseen Hparsed]. simpl in *.
  assert (forall r, r ∈ results -> key r <> key_of s e) as Hfresh.
  { intros r Hr E. destruct (Hres r Hr) as (p & c' & t' & s' & e' & _ & _ & Hk & Hf & Hl & _).
    unfold key in E. rewrite Hf, Hl in E. apply key_of_inj in E.
    congruence. }
  destruct (json_loads (String c text)) as [parsed|] eqn:Hload; intros [= <-].
  - split; simpl.
    + rewrite fmap_app. apply NoDup_app. split; [done|]. split.
      * intros k Hk [->|[]%elem_of_nil]%elem_of_cons.
        apply list_elem_of_fmap in Hk as (r & Hr & Hin). by eapply Hfresh.
      * apply NoDup_singleton.
    + intros r [Hr|Hr%list_elem_of_singleton]%elem_of_app.
      * destruct (Hres r Hr) as (p & c' & t' & s' & e' & Hp & Hext & Hk & H).
        exists p, c', t', s', e'. split; [apply elem_of_app; by left|].
        split; [done|]. split; [|done]. apply elem_of_union. by left.
      * subst r. exists pos, c, text, s, e. simpl.
        split; [apply elem_of_app; right; by apply list_elem_of_singleton|].
        split; [done|]. split; [|done].
        apply elem_of_union. right. by apply elem_of_singleton.
    + intros p c' t' s' e' [Hp|Hp%list_elem_of_singleton]%elem_of_app Hext.
      * apply elem_of_union. left. by eapply Hseen.
      * subst p. rewrite He in Hext. injection Hext as _ _ <- <-.
        apply elem_of_union. right. by apply elem_of_singleton.
    + intros s' e' parsed' [Hk|Hk%elem_of_singleton]%elem_of_union Hl.
      * apply elem_of_app. left. by apply Hparsed.
      * injection Hk as -> ->. rewrite <- Htext, Hload in Hl.
        injection Hl as <-. apply elem_of_app. right.
        by apply list_elem_of_singleton.
  - split; simpl.
    + done.
    + intros r Hr.
      destruct (Hres r Hr) as (p & c' & t' & s' & e' & Hp & Hext & Hk & H).
      exists p, c', t', s', e'. split; [apply elem_of_app; by left|].
      split; [done|]. split; [|done]. apply elem_of_union. by left.
    + intros p c' t' s' e' [Hp|Hp%list_elem_of_singleton]%elem_of_app Hext.
      * apply elem_of_union. left. by eapply Hseen.
      * subst p. rewrite He in Hext. injection Hext as _ _ <- <-.
        apply elem_of_union. right. by apply elem_of_singleton.
    + intros s' e' parsed' [Hk|Hk%elem_of_singleton]%elem_of_union Hl.
      * by apply Hparsed.
      * injection Hk as -> ->. rewrite <- Htext, Hload in Hl. done.
Qed.

Lemma for_positions_inv (content : string) (positions : list Z) :
  forall seen st st',
    loop_inv json_loads content seen st ->
    for_positions json_loads content positions st = Done st' ->
    loop_inv json_loads content (seen ++ positions) st'.
Proof.
  induction positions as [|pos positions IH]; intros seen st st' Hinv; simpl.
  - intros [= <-]. by rewrite app_nil_r.
  - destruct (visit json_loads content st pos) as [st1| |] eqn:Hv; cbn [bind];
      [|done..].
    intros H.
    replace (seen ++ pos :: positions)%list
      with ((seen ++ [pos]) ++ positions)%list by (by rewrite <- app_assoc).
    eapply IH; [|done]. by eapply visit_inv.
Qed.

(** What a printed array holds, in terms of the offsets searched. *)
Lemma main_array_inv (content filename id : string) (indent : option Z)
    (results : list (result V)) :
  main json_loads (Text content) filename id = Done (PrintArray indent results) ->
  exists positions found_objects,
    find_all_positions content id = Done positions /\
    loop_inv json_loads content positions (results, found_objects).
Proof.
  simpl. unfold main_try.
  destruct (find_all_positions content id) as [positions| |]; cbn [bind];
    [|done..].
  destruct positions as [|p positions].
  - intros [= <- <-]. exists [], ∅. split; [done|]. apply loop_inv_init.
  - destruct (for_positions _ _ _ _) as [[results' found]| |] eqn:Hfor;
      cbn [bind]; [|done..].
    intros [= <- <-]. exists (p :: positions), found. split; [done|].
    by apply (for_positions_inv content (p :: positions) [] _ _
                (loop_inv_init content)).
Qed.


End MainProperties.

(** * The claims of the specification *)

(** ** C1: extraction from an offset inside a balanced block *)

(** C1 (defect in the code).  The document [{"a": {}, "id": "7"}] is one
    balanced block, from offset 0 to offset 19, no string of which holds a
    brace, and the target literal stands at offset 10, strictly inside it.
    The backward scan stops at the opening brace of the sibling object
    [{}] at offset 6, so the text returned starts there: it is not the
    enclosing block and its start offset is 6, not 0. *)
Theorem extract_json_object_after_sibling :
  let D := Py.dq "{'a': {}, 'id': '7'}" in
  balanced_block D 0 19 /\ 0 < 10 < 19 /\
  find_all_positions D "7" = Done [10] /\
  Py.slice D 0 (19 + 1) = D /\
  extract_json_object D 10 = Done (Some (Py.dq "{}, 'id': '7'}"), 6, 19).
Proof. vm_compute. repeat split; congruence. Qed.

(** ** C2: a forward scan that reaches the end of the document *)

(** C2 (defect in the code).  In the truncated document [{"id": "7"] the
    forward scan from offset 1 reaches the last character with a bracket
    count of 1, then reads one character further: [IndexError] is raised,
    the [not found] result is not returned, and [main] prints the error. *)
Theorem extract_json_object_truncated :
  let D := Py.dq "{'id': '7'" in
  find_all_positions D "7" = Done [1] /\
  forward_scan (forward_fuel D 1) D 1 1 = Raise IndexError /\
  extract_json_object D 1 = Raise IndexError /\
  extract_json_object D 1 <> Done (None, -1, -1) /\
  main Json.loads (Text D) "results.json" "7"
    = Done (PrintError "string index out of range").
Proof. vm_compute. repeat split; congruence. Qed.

(** ** C3: the scans at the two ends of the document *)

(** C3 (defect in the code).  In [a}] there is no opening brace at or
    before offset 0: the backward scan leaves its loop at [-1], the
    operation does not fail, and it returns the text ["}"] with start
    offset [-1].  In [{] the forward scan from offset 0 reads offset 1,
    past the last position, and [IndexError] is raised. *)
Theorem extract_json_object_at_the_ends :
  backward_scan (backward_fuel 0) "a}" 0 = Done (-1) /\
  extract_json_object "a}" 0 = Done (Some "}", -1, 1) /\
  Py.len "{" = 1 /\ Py.index "{" 1 = Raise IndexError /\
  extract_json_object "{" 0 = Raise IndexError.
Proof. vm_compute. repeat split; congruence. Qed.

(** ** C4: what is printed for a readable document *)

(** C4 (defect in the code).  The document [{"id": "7"] is readable and
    holds the target literal; whatever the decoder, what [main] prints is
    the error object and not an array. *)
Theorem main_truncated_document :
  forall (V : Type) (json_loads : string -> option V) (filename : string),
    main json_loads (Text (Py.dq "{'id': '7'")) filename "7"
      = Done (PrintError "string index out of range").
Proof. intros V json_loads filename. vm_compute. reflexivity. Qed.

(** ** C5: a file that cannot be read *)

(** C5.  When the file does not exist, or opening or reading it raises any
    other exception, [main] returns normally and prints an error object
    with a message; a document without a match prints the empty array,
    and an error object is never an array. *)
Theorem main_unreadable_file :
  forall (V : Type) (json_loads : string -> option V) (filename id : string),
    main json_loads Missing filename id
      = Done (PrintError ("File '" +:+ filename +:+ "' not found")) /\
    (forall message,
        main json_loads (Unreadable message) filename id
          = Done (PrintError message)) /\
    (forall content,
        find_all_positions content id = Done [] ->
        main json_loads (Text content) filename id = Done (PrintArray None [])) /\
    (forall message indent results,
        @PrintError V message <> PrintArray indent results).
Proof.
  intros V json_loads filename id. repeat split; try done.
  intros content H. simpl. unfold main_try. by rewrite H.
Qed.

Lemma main_unreadable_file_witness :
  main Json.loads Missing "results.json" "42"
    = Done (PrintError "File 'results.json' not found") /\
  main Json.loads (Text (Py.dq "{'id':'42'}")) "results.json" "42"
    = Done (PrintArray None []).
Proof.
  destruct (main_unreadable_file Json.value Json.loads "results.json" "42")
    as (Hmissing & _ & Hnone & _).
  split; [exact Hmissing|]. apply Hnone. reflexivity.
Defined.

(** ** C6: one element per pair of offsets *)

(** C6, as stated, fails: in [{"id": "7" "id": "7"}] the literal occurs at
    offsets 1 and 11, both extract to the pair (0, 20), and the text of
    that block does not decode, so the block contributes no element. *)
Lemma undecodable_block_contributes_nothing :
  let D := Py.dq "{'id': '7' 'id': '7'}" in
  find_all_positions D "7" = Done [1; 11] /\
  extract_json_object D 1 = Done (Some D, 0, 20) /\
  extract_json_object D 11 = Done (Some D, 0, 20) /\
  Json.decode D = Raise Json.JSONDecodeError /\
  exists results,
    main Json.loads (Text D) "results.json" "7" = Done (PrintArray (Some 2) results) /\
    tagged (key_of 0 20) results = 0%nat.
Proof.
  cbv zeta. do 4 (split; [by vm_compute|]).
  exists []. split; by vm_compute.
Qed.

(** C6, amended.  Whenever [main] prints an array, the tags of its elements
    are pairwise distinct, and every pair [(start, end)] extracted from an
    offset of the literal contributes at most one element: exactly one, the
    decoded text tagged with the pair, when its text decodes, and none when
    it does not. *)
Theorem main_deduplicates :
  forall (V : Type) (json_loads : string -> option V)
         (content filename id : string) (indent : option Z)
         (results : list (result V)),
    main json_loads (Text content) filename id = Done (PrintArray indent results) ->
    NoDup (key <$> results) /\
    (forall r, r ∈ results ->
       exists s e, first_line r = Py.str s /\ last_line r = Py.str e) /\
    exists positions,
      find_all_positions content id = Done positions /\
      forall p c text s e,
        p ∈ positions ->
        extract_json_object content p = Done (Some (String c text), s, e) ->
        match json_loads (String c text) with
        | Some parsed =>
            Result (Py.str s) (Py.str e) parsed ∈ results /\
            tagged (key_of s e) results = 1%nat
        | None => tagged (key_of s e) results = 0%nat
        end.
Proof.
  intros V json_loads content filename id indent results Hmain.
  destruct (main_array_inv json_loads _ _ _ _ _ Hmain)
    as (positions & found & Hpos & [Hnd Hres Hseen Hparsed]).
  simpl in *. split; [done|]. split.
  { intros r Hr. destruct (Hres r Hr) as (_ & _ & _ & s & e & _ & _ & _ & ? & ? & _).
    eauto. }
  exists positions. split; [done|].
  intros p c text s e Hp Hext.
  pose proof (Hseen _ _ _ _ _ Hp Hext) as Hfound.
  pose proof (extract_json_object_text _ _ _ _ _ Hext) as Htext.
  destruct (json_loads (String c text)) as [parsed|] eqn:Hload.
  - rewrite Htext in Hload. pose proof (Hparsed _ _ _ Hfound Hload) as Hin.
    split; [done|]. by apply (tagged_one (Result (Py.str s) (Py.str e) parsed)).
  - apply tagged_none. intros r Hr E.
    destruct (Hres r Hr) as (p' & c' & t' & s' & e' & _ & Hext' & _ & Hf & Hl & Hload').
    unfold key in E. rewrite Hf, Hl in E. apply key_of_inj in E.
    injection E as -> ->.
    rewrite (extract_json_object_text _ _ _ _ _ Hext') in Hload'.
    rewrite Htext in Hload. congruence.
Qed.

Lemma main_deduplicates_witness :
  let D := Py.dq "{'id': '7', 'id': '7'}" in
  let results :=
    [Result "0" "21" (Json.Object [("id", Json.Str "7"); ("id", Json.Str "7")])] in
  NoDup (key <$> results) /\
  (forall r, r ∈ results ->
     exists s e, first_line r = Py.str s /\ last_line r = Py.str e) /\
  exists positions,
    find_all_positions D "7" = Done positions /\
    forall p c text s e,
      p ∈ positions ->
      extract_json_object D p = Done (Some (String c text), s, e) ->
      match Json.loads (String c text) with
      | Some parsed =>
          Result (Py.str s) (Py.str e) parsed ∈ results /\
          tagged (key_of s e) results = 1%nat
      | None => tagged (key_of s e) results = 0%nat
      end.
Proof.
  apply (main_deduplicates Json.value Json.loads
           (Py.dq "{'id': '7', 'id': '7'}") "results.json" "7" (Some 2)).
  vm_compute. reflexivity.
Defined.

(** ** C7: the offsets of the literal *)

(** C7, as stated, fails: with the empty id the literal has eight
    characters, and in the document below it occurs at offsets 0 and 7; both
    are returned although the two matches share a character. *)
Lemma find_all_positions_overlapping :
  let D := Py.dq "'id': ''id': ''" in
  Py.len (search_str "") = 8 /\
  find_all_positions D "" = Done [0; 7] /\
  ~ overlap_free (Py.len (search_str "")) [0; 7].
Proof.
  split; [reflexivity|]. split; [reflexivity|].
  intros H.
  assert (0 + Py.len (search_str "") <= 7) as Hle
    by (apply H; [left|right; left|]; done).
  by vm_compute in Hle.
Qed.

(** C7, amended.  [find_all_positions] searches for the literal repeatedly
    from the start of the document, each search resuming one character
    after the previous match, so that matches may overlap; it always
    returns, and what it returns is the list of all the offsets at which
    the literal occurs, in strictly increasing order: the empty list when
    there is none. *)
Theorem find_all_positions_every_match :
  forall content target_id : string,
    exists positions,
      find_all_positions content target_id = Done positions /\
      StronglySorted Z.lt positions /\
      (forall p, p ∈ positions <-> occurs_at content (search_str target_id) p) /\
      ((forall p, ~ occurs_at content (search_str target_id) p) -> positions = []).
Proof.
  intros content target_id.
  destruct (find_all_positions_spec content target_id)
    as (positions & Hfind & Hsorted & Hmem).
  exists positions. do 3 (split; [done|]).
  intros Hnone. destruct positions as [|p positions]; [done|].
  exfalso. apply (Hnone p), Hmem. by left.
Qed.

(** ** C8: decoding the extracted text *)

(** C8 (defect in the code).  The document [{"a": {}, "id": "7"}] decodes,
    no string in it holds a brace, and extraction at the offset of the
    literal succeeds; but the text extracted, [{}, "id": "7"}], starts at
    the sibling object and does not decode, so it is not the enclosing
    object of the document and [main] prints an array without it. *)
Theorem extracted_text_does_not_decode :
  let D := Py.dq "{'a': {}, 'id': '7'}" in
  Json.decode D
    = Done (Json.Object [("a", Json.Object []); ("id", Json.Str "7")]) /\
  balanced_block D 0 19 /\
  extract_json_object D 10 = Done (Some (Py.dq "{}, 'id': '7'}"), 6, 19) /\
  Json.decode (Py.dq "{}, 'id': '7'}") = Raise Json.JSONDecodeError /\
  main Json.loads (Text D) "results.json" "7" = Done (PrintArray (Some 2) []).
Proof. vm_compute. repeat split; congruence. Qed.

(** ** C9: running the extractor twice *)

(** C9.  A run on a readable document always prints, and what it prints is
    determined by the text of the document and the id alone: a second run
    in the world the first one leaves prints the same output after the
    first, and so does a run in any other world, under any other file
    name, on a document with the same text. *)
Theorem run_twice_same_output :
  forall (V : Type) (json_loads : string -> option V) (w w' : world V)
         (filename filename' id content : string),
    files w filename = Text content ->
    files w' filename' = Text content ->
    exists out,
      main json_loads (Text content) filename id = Done out /\
      run json_loads w filename id
        = Done (World (files w) (stdout w ++ [out])) /\
      run json_loads (World (files w) (stdout w ++ [out])) filename id
        = Done (World (files w) ((stdout w ++ [out]) ++ [out])) /\
      run json_loads w' filename' id
        = Done (World (files w') (stdout w' ++ [out])).
Proof.
  intros V json_loads w w' filename filename' id content Hw Hw'.
  destruct (main_returns json_loads (Text content) filename id) as [out Hout].
  exists out. split; [done|]. unfold run. simpl files. rewrite Hw, Hw'.
  assert (main json_loads (Text content) filename' id = Done out) as Hout'
    by exact Hout.
  rewrite Hout, Hout'. done.
Qed.

Lemma run_twice_same_output_witness :
  let D := Py.dq "{'a': {'id': '42', 'v': 1}, 'b': {'id': '43'}}" in
  let w := World (fun _ => Text D) [] in
  let w' := World (fun _ => Text D) [PrintError "earlier output"] in
  exists out : printed Json.value,
    main Json.loads (Text D) "results.json" "42" = Done out /\
    run Json.loads w "results.json" "42"
      = Done (World (files w) (stdout w ++ [out])) /\
    run Json.loads (World (files w) (stdout w ++ [out])) "results.json" "42"
      = Done (World (files w) ((stdout w ++ [out]) ++ [out])) /\
    run Json.loads w' "copy.json" "42"
      = Done (World (files w') (stdout w' ++ [out])).
Proof.
  intros D w w'.
  apply (run_twice_same_output Json.value Json.loads w w'
           "results.json" "copy.json" "42" D); reflexivity.
Defined.

(** ** C10: the literal searched for *)

(** C10.  The literal is the id between double quotes, after the quoted key
    [id], a colon and one space.  When [str.find] does not find this literal
    in the document, it occurs at no offset, the list of positions is empty
    and [main] prints the empty array, whatever else the document holds. *)
Theorem search_literal_is_exact :
  forall (V : Type) (json_loads : string -> option V)
         (content filename id : string),
    search_str id = Py.dq "'id': '" +:+ id +:+ Py.dq "'" /\
    (Py.find content (search_str id) 0 = -1 ->
       (forall p, ~ occurs_at content (search_str id) p) /\
       find_all_positions content id = Done [] /\
       main json_loads (Text content) filename id = Done (PrintArray None [])).
Proof.
  intros V json_loads content filename id. split; [reflexivity|].
  intros Hfind.
  assert (find_all_positions content id = Done []) as Hnone
    by (unfold find_all_positions; rewrite Hfind; reflexivity).
  split; [|split; [done|]].
  - intros p Hocc.
    eapply (find_not_found content (search_str id) 0); [lia|done|done| |done].
    apply Hocc.
  - simpl. unfold main_try. by rewrite Hnone.
Qed.

Lemma search_literal_is_exact_witness :
  let D := Py.dq "{'id':'42'}" in
  occurs_at D (Py.dq "'id':'42'") 1 /\
  (forall p, ~ occurs_at D (search_str "42") p) /\
  find_all_positions D "42" = Done [] /\
  main Json.loads (Text D) "results.json" "42" = Done (PrintArray None []).
Proof.
  intros D. split; [split; [lia|reflexivity]|].
  apply (search_literal_is_exact Json.value Json.loads D "results.json" "42").
  reflexivity.
Defined.

(** * Further properties of the extractor *)

(** Extraction is right from every offset that lies in a balanced block and
    that no brace separates from the opening brace of the block: the text of
    the block is returned, with its two offsets. *)
Theorem extract_json_object_enclosing_block :
  forall (content : string) (s e p : Z),
    balanced_block content s e -> s <= p < e ->
    brace_free (Py.slice content (s + 1) (p + 1)) = true ->
    extract_json_object content p
      = Done (Some (Py.slice content s (e + 1)), s, e).
Proof. exact extract_json_object_block. Qed.

Lemma extract_json_object_enclosing_block_witness :
  let D := Py.dq "{'a': {'id': '42', 'v': 1}, 'b': {'id': '43'}}" in
  extract_json_object D 7 = Done (Some (Py.slice D 6 (25 + 1)), 6, 25).
Proof.
  intros D. apply (extract_json_object_enclosing_block D 6 25 7).
  - repeat split; try reflexivity. lia.
  - lia.
  - reflexivity.
Defined.

(** A call of [extract_json_object] has two outcomes only: a text with its
    two offsets, the text being the slice of the document between them, or
    [IndexError]; the [not found] result is never returned. *)
Theorem extract_json_object_outcomes :
  forall (content : string) (start_pos : Z),
    (exists s e,
        extract_json_object content start_pos
          = Done (Some (Py.slice content s (e + 1)), s, e)) \/
    extract_json_object content start_pos = Raise IndexError.
Proof.
  intros content start_pos.
  pose proof (extract_json_object_terminates content start_pos) as Ht.
  destruct (extract_json_object content start_pos) as [[[obj s] e]|e|] eqn:E;
    [| |done].
  - left. destruct obj as [obj|].
    + exists s, e. by rewrite (extract_json_object_text _ _ _ _ _ E).
    + by apply extract_json_object_finds in E.
  - right. by rewrite (extract_json_object_raises _ _ _ E).
Qed.


(** [main] returns normally and prints, whatever the file and the id. *)
Theorem main_always_prints :
  forall (V : Type) (json_loads : string -> option V) (f : file)
         (filename id : string),
    exists out, main json_loads f filename id = Done out.
Proof. intros V json_loads. exact (main_returns json_loads). Qed.

(** The scenario of the specification: one match at offset 7, the object
    around it extracted from offset 6 to offset 25 and printed with these
    offsets as strings. *)
Theorem main_on_the_sample_document :
  let D := Py.dq "{'a': {'id': '42', 'v': 1}, 'b': {'id': '43'}}" in
  find_all_positions D "42" = Done [7] /\
  extract_json_object D 7
    = Done (Some (Py.dq "{'id': '42', 'v': 1}"), 6, 25) /\
  main Json.loads (Text D) "results.json" "42"
    = Done (PrintArray (Some 2)
              [Result "6" "25"
                 (Json.Object [("id", Json.Str "42"); ("v", Json.Number "1")])]).
Proof. vm_compute. repeat split; congruence. Qed.

(** ** The two scans, for an offset inside the document *)

Lemma backward_scan_nearest (content : string) (fuel : nat) :
  forall p,
    -1 <= p < Py.len content -> (Z.to_nat (p + 1) < fuel)%nat ->
    exists s, backward_scan fuel content p = Done s /\ nearest_open content p s.
Proof.
  induction fuel as [|fuel IH]; intros p Hp Hfuel; [lia|].
  simpl. destruct (Z.leb_spec 0 p) as [Hge|Hlt].
  - destruct (index_in_range content p) as [c Hc]; [lia|].
    rewrite Hc. cbn [bind].
    destruct (Ascii.eqb_spec c Py.lbrace) as [->|Hne].
    + exists p. split; [done|]. right. split; [lia|]. split; [done|].
      intros i Hi. lia.
    + destruct (IH (p - 1)) as (s & Hs & Hnear); [lia|lia|].
      exists s. split; [done|].
      assert (Py.index content p <> Done Py.lbrace) as Hp'
        by (rewrite Hc; congruence).
      destruct Hnear as [[-> Hnone]|(Hrange & Hopen & Hnone)].
      * left. split; [done|]. intros i Hi.
        destruct (decide (i = p)) as [->|]; [done|]. apply Hnone. lia.
      * right. split; [lia|]. split; [done|]. intros i Hi.
        destruct (decide (i = p)) as [->|]; [done|]. apply Hnone. lia.
  - exists p. split; [done|]. left. split; [lia|]. intros i Hi. lia.
Qed.

(** The character at which [closing] stops is a closing brace. *)
Lemma closing_rbrace (text : string) :
  forall d j, 0 < d -> closing text d = Some j ->
    String.get (Z.to_nat j) text = Some Py.rbrace.
Proof.
  induction text as [|c text IH]; intros d j Hd H; simpl in H; [done|].
  destruct (Z.eqb_spec (brace_step c d) 0) as [Hz|Hnz].
  - injection H as <-. simpl. f_equal. unfold brace_step in Hz.
    destruct (Ascii.eqb c Py.lbrace); [lia|].
    destruct (Ascii.eqb_spec c Py.rbrace); [done|lia].
  - destruct (closing text (brace_step c d)) as [y|] eqn:Hy; [|done].
    injection H as <-. pose proof (closing_lt _ _ _ Hy) as Hlt.
    assert (0 < brace_step c d) as Hpos.
    { unfold brace_step in *.
      destruct (Ascii.eqb c Py.lbrace), (Ascii.eqb c Py.rbrace); lia. }
    replace (Z.to_nat (Z.succ y)) with (S (Z.to_nat y)) by lia. simpl.
    by eapply IH.
Qed.

Lemma clip_minus_one (n : Z) : 1 <= n -> Py.clip n (-1) = n - 1.
Proof.
  intros H. unfold Py.clip. cbv zeta. change (-1 <? 0) with true. cbv iota.
  replace (-1 + n <? 0) with false by lia.
  replace (n <? -1 + n) with false by lia. lia.
Qed.

(** What the two scans compute, for an offset inside the document. *)
Lemma extract_json_object_scans :
  forall (content : string) (p : Z),
    0 <= p < Py.len content ->
    match closing (suffix content (Z.to_nat (p + 1))) 1 with
    | Some j =>
        exists s,
          nearest_open content p s /\
          Py.index content (p + 1 + j) = Done Py.rbrace /\
          extract_json_object content p
            = Done (Some (Py.slice content s (p + 1 + j + 1)), s, p + 1 + j)
    | None => extract_json_object content p = Raise IndexError
    end.
Proof.
  intros content p Hp. unfold extract_json_object.
  destruct (backward_scan_nearest content (backward_fuel p) p) as (s & Hs & Hnear);
    [lia|unfold backward_fuel; lia|].
  rewrite Hs. cbn [bind].
  rewrite forward_scan_closing by (unfold forward_fuel; lia).
  destruct (closing _ _) as [j|] eqn:Hj; cbn [bind]; [|done].
  exists s. split; [done|]. split; [|done].
  pose proof (closing_lt _ _ _ Hj) as Hlt.
  pose proof (closing_rbrace _ 1 j ltac:(lia) Hj) as Hget.
  pose proof (suffix_length content (Z.to_nat (p + 1))) as Hlen.
  apply index_get; [lia|].
  unfold suffix in Hget. rewrite substring_correct1 in Hget by lia.
  rewrite <- Hget. f_equal. lia.
Qed.

(** * Further properties: offsets, order and matching *)

(** For an offset inside the document, [extract_json_object] is determined by
    two facts of the text: the start it returns is the offset of the last
    opening brace at or before the offset ([-1] when there is none, without
    failing), and the end is the first later offset at which the count of
    braces, started at 1, comes down to 0; when there is no such offset,
    the call raises [IndexError]. *)
Theorem extract_json_object_in_range :
  forall (content : string) (p : Z),
    0 <= p < Py.len content ->
    match closing (suffix content (Z.to_nat (p + 1))) 1 with
    | Some j =>
        exists s,
          nearest_open content p s /\
          Py.index content (p + 1 + j) = Done Py.rbrace /\
          extract_json_object content p
            = Done (Some (Py.slice content s (p + 1 + j + 1)), s, p + 1 + j)
    | None => extract_json_object content p = Raise IndexError
    end.
Proof. exact extract_json_object_scans. Qed.

Lemma extract_json_object_in_range_witness :
  let D := Py.dq "x{'a': 1}{" in
  match closing (suffix D (Z.to_nat (3 + 1))) 1 with
  | Some j =>
      exists s,
        nearest_open D 3 s /\
        Py.index D (3 + 1 + j) = Done Py.rbrace /\
        extract_json_object D 3
          = Done (Some (Py.slice D s (3 + 1 + j + 1)), s, 3 + 1 + j)
  | None => extract_json_object D 3 = Raise IndexError
  end.
Proof.
  intros D. apply (extract_json_object_in_range D 3). vm_compute. split; congruence.
Defined.

(** An offset at or past the end of the document is read by the backward
    scan: the call raises [IndexError]; in particular every offset from 0
    on raises on the empty document. *)
Theorem extract_json_object_past_the_end :
  forall (content : string) (p : Z),
    Py.len content <= p -> extract_json_object content p = Raise IndexError.
Proof.
  intros content p Hp. unfold extract_json_object, backward_fuel. simpl.
  assert (0 <= Py.len content) by (unfold Py.len; lia).
  replace (0 <=? p) with true by lia.
  by rewrite index_past_end by lia.
Qed.

Lemma extract_json_object_past_the_end_witness :
  extract_json_object "{}" 2 = Raise IndexError.
Proof. apply extract_json_object_past_the_end. vm_compute. congruence. Defined.

(** When no opening brace stands at or before an offset inside the
    document, a result is still returned whenever a closing brace follows:
    its start is [-1], and its text is empty, or is the closing brace alone
    when that brace is the last character of the document. *)
Theorem extract_json_object_without_opening_brace :
  forall (content : string) (p : Z) (obj : option string) (s e : Z),
    0 <= p < Py.len content ->
    (forall i, 0 <= i <= p -> Py.index content i <> Done Py.lbrace) ->
    extract_json_object content p = Done (obj, s, e) ->
    s = -1 /\ p < e < Py.len content /\
    (obj = Some EmptyString \/
     (obj = Some (String Py.rbrace EmptyString) /\ e = Py.len content - 1)).
Proof.
  intros content p obj s e Hp Hnone Hext.
  pose proof (extract_json_object_scans content p Hp) as Hspec.
  destruct (closing _ _) as [j|] eqn:Hj; [|congruence].
  destruct Hspec as (s' & Hnear & Hclose & Hext').
  rewrite Hext in Hext'. injection Hext' as -> -> ->.
  pose proof (closing_lt _ _ _ Hj) as Hlt.
  pose proof (suffix_length content (Z.to_nat (p + 1))) as Hlen.
  assert (s' = -1) as ->.
  { destruct Hnear as [[-> _]|(Hrange & Hopen & _)]; [done|].
    exfalso. apply (Hnone s'); [lia|done]. }
  split; [done|]. split; [unfold Py.len; lia|].
  unfold Py.slice.
  rewrite clip_minus_one by lia.
  rewrite clip_inside by (unfold Py.len; lia).
  destruct (decide (p + 1 + j = Py.len content - 1)) as [Hlast|Hnot].
  - right. split; [|done]. f_equal.
    replace (Z.to_nat (p + 1 + j + 1 - (Py.len content - 1))) with 1%nat by lia.
    apply get_correct. intros [|n].
    + rewrite substring_correct1 by lia. simpl.
      unfold Py.index in Hclose.
      replace (p + 1 + j <? 0) with false in Hclose by lia.
      replace ((p + 1 + j <? 0) || (Py.len content <=? p + 1 + j))
        with false in Hclose by lia.
      rewrite Hlast in Hclose.
      destruct (String.get _ _) as [c|]; [|done]. by injection Hclose as ->.
    + rewrite substring_correct2 by lia. done.
  - left. f_equal.
    replace (Z.to_nat (p + 1 + j + 1 - (Py.len content - 1))) with 0%nat
      by (unfold Py.len in *; lia).
    apply get_correct. intros n. rewrite substring_correct2 by lia. done.
Qed.

Lemma extract_json_object_without_opening_brace_witness :
  -1 = -1 /\ 0 < 1 < Py.len "a}" /\
  (Some "}" = Some EmptyString \/
   (Some "}" = Some (String Py.rbrace EmptyString) /\ 1 = Py.len "a}" - 1)).
Proof.
  apply (extract_json_object_without_opening_brace "a}" 0 (Some "}") (-1) 1).
  - vm_compute. split; congruence.
  - intros i Hi. assert (i = 0) as -> by lia. vm_compute. congruence.
  - vm_compute. reflexivity.
Defined.

(** ** A match and the block extracted from it *)



Lemma search_str_length (id : string) :
  String.length (search_str id) = (8 + String.length id)%nat.
Proof.
  unfold search_str. simpl. do 7 f_equal.
  induction id as [|c id IH]; simpl; [done|]. by rewrite IH.
Qed.

(** The characters of the document under a match are those of the literal. *)
Lemma occurs_at_get (content sub : string) (p : Z) (i : nat) :
  occurs_at content sub p -> (i < String.length sub)%nat ->
  String.get (Z.to_nat p + i) content = String.get i sub.
Proof.
  intros [Hp Hsub] Hi. rewrite <- Hsub at 1.
  rewrite substring_correct1 by done. f_equal. lia.
Qed.


Lemma substring_substring (s : string) (a b n m : nat) :
  (n + m <= b)%nat ->
  String.substring n m (String.substring a b s) = String.substring (a + n) m s.
Proof.
  intros H. apply get_correct. intros i.
  destruct (decide (i < m)%nat) as [Hi|Hi].
  - rewrite !substring_correct1 by lia. f_equal. lia.
  - by rewrite !substring_correct2 by lia.
Qed.



(** Where the literal of an id without quote occurs, the literal of no other
    such id does. *)
Lemma id_under_match (content : string) :
  forall (a b : string) (n : nat),
    (forall i, (i <= String.length a)%nat ->
       String.get (n + i) content
         = String.get i (a +:+ String Py.dquote EmptyString)) ->
    (forall i, (i <= String.length b)%nat ->
       String.get (n + i) content
         = String.get i (b +:+ String Py.dquote EmptyString)) ->
    has_char Py.dquote a = false -> has_char Py.dquote b = false ->
    a = b.
Proof.
  induction a as [|c a IH]; intros b n Ha Hb Hqa Hqb.
  - destruct b as [|c' b]; [done|].
    pose proof (Ha 0%nat ltac:(simpl; lia)) as H1.
    pose proof (Hb 0%nat ltac:(simpl; lia)) as H2.
    simpl in *. rewrite H1 in H2. injection H2 as <-.
    by rewrite Ascii.eqb_refl in Hqb.
  - destruct b as [|c' b].
    + pose proof (Ha 0%nat ltac:(simpl; lia)) as H1.
      pose proof (Hb 0%nat ltac:(simpl; lia)) as H2.
      simpl in *. rewrite H1 in H2. injection H2 as ->.
      by rewrite Ascii.eqb_refl in Hqa.
    + pose proof (Ha 0%nat ltac:(simpl; lia)) as H1.
      pose proof (Hb 0%nat ltac:(simpl; lia)) as H2.
      simpl in H1, H2. rewrite H1 in H2. injection H2 as <-.
      simpl in Hqa, Hqb. apply orb_false_elim in Hqa as [_ Hqa].
      apply orb_false_elim in Hqb as [_ Hqb].
      f_equal. apply (IH b (S n)); [| |done|done].
      * intros i Hi. specialize (Ha (S i) ltac:(simpl; lia)).
        simpl in Ha. rewrite <- Ha. f_equal. lia.
      * intros i Hi. specialize (Hb (S i) ltac:(simpl; lia)).
        simpl in Hb. rewrite <- Hb. f_equal. lia.
Qed.

Lemma search_str_get (id : string) (i : nat) :
  String.get (7 + i) (search_str id)
    = String.get i (id +:+ String Py.dquote EmptyString).
Proof. reflexivity. Qed.

Lemma match_names_one_id (content id1 id2 : string) (p : Z) :
  has_char Py.dquote id1 = false -> has_char Py.dquote id2 = false ->
  occurs_at content (search_str id1) p ->
  occurs_at content (search_str id2) p ->
  id1 = id2.
Proof.
  intros Hq1 Hq2 Hocc1 Hocc2.
  apply (id_under_match content id1 id2 (Z.to_nat p + 7)); [| |done|done].
  - intros i Hi. rewrite <- search_str_get.
    rewrite <- (occurs_at_get content (search_str id1) p (7 + i) Hocc1)
      by (rewrite search_str_length; lia).
    f_equal. lia.
  - intros i Hi. rewrite <- search_str_get.
    rewrite <- (occurs_at_get content (search_str id2) p (7 + i) Hocc2)
      by (rewrite search_str_length; lia).
    f_equal. lia.
Qed.

(** ** The order of the elements printed *)

Lemma sublist_elem (A : Type) (l k : list A) (x : A) :
  l `sublist_of` k -> x ∈ l -> x ∈ k.
Proof.
  induction 1 as [|y l k Hsub IH|y l k Hsub IH]; intros Hx; [done| |].
  - apply elem_of_cons in Hx as [->|Hx]; [by left|right; by apply IH].
  - right. by apply IH.
Qed.

Lemma sublist_sorted (l k : list Z) :
  l `sublist_of` k -> StronglySorted Z.lt k -> StronglySorted Z.lt l.
Proof.
  induction 1 as [|y l k Hsub IH|y l k Hsub IH]; intros Hk; [done| |].
  - apply StronglySorted_inv in Hk as [Hk Hall]. constructor; [by apply IH|].
    apply Forall_forall. intros x Hx.
    rewrite Forall_forall in Hall. apply Hall. by eapply sublist_elem.
  - apply StronglySorted_inv in Hk as [Hk _]. by apply IH.
Qed.

Section Order.

Context {V : Type} (json_loads : string -> option V).

(** One turn of the loop leaves the results as they are or appends the
    decoded block of the offset, when its pair of offsets is new. *)
Lemma visit_cases (content : string) (pos : Z)
    (st st' : list (result V) * gset (Z * Z)) :
  visit json_loads content st pos = Done st' ->
  st'.1 = st.1 \/
  exists c text s e parsed,
    extract_json_object content pos = Done (Some (String c text), s, e) /\
    ((s, e) ∉ st.2) /\ json_loads (String c text) = Some parsed /\
    st'.1 = (st.1 ++ [Result (Py.str s) (Py.str e) parsed])%list.
Proof.
  unfold visit. destruct st as [results found_objects].
  destruct (extract_json_object content pos) as [[[obj s] e]| |] eqn:He;
    cbn [bind]; [|done..].
  destruct obj as [[|c text]|]; [intros [= <-]; by left| |intros [= <-]; by left].
  destruct (decide _) as [Hin|Hnotin]; [intros [= <-]; by left|].
  destruct (json_loads (String c text)) as [parsed|] eqn:Hload;
    intros [= <-]; [|by left].
  right. by exists c, text, s, e, parsed.
Qed.

Lemma visit_order (content : string) (seen : list Z) (pos : Z)
    (st st' : list (result V) * gset (Z * Z)) (ps : list Z) :
  loop_inv json_loads content seen st ->
  (forall q, q ∈ seen -> q < pos) ->
  ps `sublist_of` seen ->
  Forall2 (emitted_from json_loads content seen) ps st.1 ->
  visit json_loads content st pos = Done st' ->
  exists ps',
    ps' `sublist_of` (seen ++ [pos])%list /\
    Forall2 (emitted_from json_loads content (seen ++ [pos])) ps' st'.1.
Proof.
  intros Hinv Hlt Hsub Hall Hvisit.
  assert (Forall2 (emitted_from json_loads content (seen ++ [pos])) ps st.1)
    as Hall'.
  { assert (forall p, p ∈ ps -> p ∈ seen) as Hps
      by (intros p' Hp'; by eapply sublist_elem).
    clear Hsub. induction Hall as [|p r ps rs [Hr Hfirst] Hrest IH];
      constructor.
    - split; [done|]. intros q s e Hq Hqs Hpse.
      apply elem_of_app in Hq as [Hq|Hq%list_elem_of_singleton].
      + by eapply Hfirst.
      + subst q. specialize (Hlt p (Hps p ltac:(left))). lia.
    - apply IH. intros p' Hp'. apply Hps. by right. }
  destruct (visit_cases _ _ _ _ Hvisit)
    as [->|(c & text & s & e & parsed & Hext & Hnew & Hload & ->)].
  - exists ps. split; [by apply sublist_inserts_r|done].
  - exists (ps ++ [pos])%list. split; [by apply sublist_app|].
    apply Forall2_app; [done|]. constructor; [|constructor].
    split; [by exists c, text, s, e|].
    intros q s' e' Hq Hqs (c' & text' & Hpos).
    rewrite Hext in Hpos. injection Hpos as _ _ <- <-.
    apply elem_of_app in Hq as [Hq|Hq%list_elem_of_singleton]; [|lia].
    exfalso. apply Hnew. destruct Hqs as (c'' & text'' & Hqs).
    destruct Hinv as [_ _ Hseen _]. by eapply Hseen.
Qed.

Lemma for_positions_order (content : string) (positions : list Z) :
  forall seen st st' ps,
    StronglySorted Z.lt (seen ++ positions) ->
    loop_inv json_loads content seen st ->
    ps `sublist_of` seen ->
    Forall2 (emitted_from json_loads content seen) ps st.1 ->
    for_positions json_loads content positions st = Done st' ->
    exists ps',
      ps' `sublist_of` (seen ++ positions)%list /\
      Forall2 (emitted_from json_loads content (seen ++ positions)) ps' st'.1.
Proof.
  induction positions as [|pos positions IH];
    intros seen st st' ps Hsorted Hinv Hsub Hall; simpl.
  - intros [= <-]. rewrite app_nil_r. by exists ps.
  - destruct (visit json_loads content st pos) as [st1| |] eqn:Hv; cbn [bind];
      [|done..].
    intros Hfor.
    assert (forall q, q ∈ seen -> q < pos) as Hlt.
    { intros q Hq. clear -Hq Hsorted.
      induction seen as [|a seen IHs]; [by apply elem_of_nil in Hq|].
      simpl in Hsorted. apply StronglySorted_inv in Hsorted as [Hs Hall].
      apply elem_of_cons in Hq as [->|Hq]; [|by apply IHs].
      rewrite Forall_forall in Hall. apply Hall.
      apply elem_of_app. right. by left. }
    destruct (visit_order _ _ _ _ _ _ Hinv Hlt Hsub Hall Hv) as (ps1 & Hsub1 & Hall1).
    replace (seen ++ pos :: positions)%list
      with ((seen ++ [pos]) ++ positions)%list in * by (by rewrite <- app_assoc).
    eapply (IH _ _ _ ps1); [done| |done|done|done].
    by eapply visit_inv.
Qed.

Lemma main_order (content filename id : string) (indent : option Z)
    (results : list (result V)) :
  main json_loads (Text content) filename id = Done (PrintArray indent results) ->
  exists positions ps,
    find_all_positions content id = Done positions /\
    ps `sublist_of` positions /\ StronglySorted Z.lt ps /\
    Forall2 (emitted_from json_loads content positions) ps results.
Proof.
  intros Hmain. simpl in Hmain. unfold main_try in Hmain.
  destruct (find_all_positions_spec content id) as (positions & Hpos & Hsorted & _).
  rewrite Hpos in Hmain. cbn [bind] in Hmain. exists positions.
  destruct positions as [|p positions].
  - injection Hmain as <- <-. exists []. repeat split; try done; constructor.
  - destruct (for_positions _ _ _ _) as [[results' found]| |] eqn:Hfor;
      cbn [bind] in Hmain; [|done..].
    injection Hmain as <- <-.
    destruct (for_positions_order content (p :: positions) [] _ _ [] Hsorted
                (loop_inv_init json_loads content) ltac:(done)
                ltac:(constructor) Hfor) as (ps & Hsub & Hall).
    exists ps. split; [done|]. split; [done|].
    split; [by eapply sublist_sorted|done].
Qed.

End Order.

(** ** Matches, blocks and order: the statements *)



(** An offset of the document is a match of at most one id without double
    quote: where the literal of one such id occurs, the literal of another,
    be it longer, shorter or a part of the first, does not occur. *)
Theorem match_identifies_the_id :
  forall (content id1 id2 : string) (p : Z),
    has_char Py.dquote id1 = false -> has_char Py.dquote id2 = false ->
    id1 <> id2 ->
    occurs_at content (search_str id1) p ->
    ~ occurs_at content (search_str id2) p.
Proof.
  intros content id1 id2 p H1 H2 Hne Ho1 Ho2.
  exact (Hne (match_names_one_id content id1 id2 p H1 H2 Ho1 Ho2)).
Qed.

Lemma match_identifies_the_id_witness :
  let D := Py.dq "{'id': '42'}" in
  occurs_at D (search_str "42") 1 /\ ~ occurs_at D (search_str "4") 1.
Proof.
  intros D.
  assert (occurs_at D (search_str "42") 1) as Hocc by (split; [lia|reflexivity]).
  split; [exact Hocc|].
  apply (match_identifies_the_id D "42" "4" 1);
    [reflexivity|reflexivity|discriminate|exact Hocc].
Defined.

(** The elements of a printed array follow the order of the document: they
    are the decoded blocks of an increasing selection of the match offsets,
    one offset per element, each offset being the first match that extracts
    to the block of its element. *)
Theorem main_prints_in_document_order :
  forall (V : Type) (json_loads : string -> option V)
         (content filename id : string) (indent : option Z)
         (results : list (result V)),
    main json_loads (Text content) filename id = Done (PrintArray indent results) ->
    exists positions ps,
      find_all_positions content id = Done positions /\
      ps `sublist_of` positions /\ StronglySorted Z.lt ps /\
      Forall2 (emitted_from json_loads content positions) ps results.
Proof. intros V json_loads. exact (main_order json_loads). Qed.

Lemma main_prints_in_document_order_witness :
  let D := Py.dq "[{'id': '7', 'a': {}}, {'id': '7'}]" in
  let results :=
    [Result "1" "20" (Json.Object [("id", Json.Str "7"); ("a", Json.Object [])]);
     Result "23" "33" (Json.Object [("id", Json.Str "7")])] in
  exists positions ps,
    find_all_positions D "7" = Done positions /\
    ps `sublist_of` positions /\ StronglySorted Z.lt ps /\
    Forall2 (emitted_from Json.loads D positions) ps results.
Proof.
  intros D results.
  apply (main_prints_in_document_order Json.value Json.loads D
           "results.json" "7" (Some 2) results).
  vm_compute. reflexivity.
Defined.

(** ** When [main] prints the error, and what the printed offsets locate *)

Section Failure.

Context {V : Type} (json_loads : string -> option V).


(** A match is an offset inside the document. *)
Lemma match_in_range (content id : string) (p : Z) :
  occurs_at content (search_str id) p -> 0 <= p < Py.len content.
Proof.
  intros Hocc. split; [apply Hocc|].
  eapply occurs_at_lt; [apply search_str_nonempty|done].
Qed.




(** The offsets printed with an element locate its text in the document. *)
Lemma main_offsets (content filename id : string) (indent : option Z)
    (results : list (result V)) :
  main json_loads (Text content) filename id = Done (PrintArray indent results) ->
  forall r, r ∈ results ->
    exists s e,
      first_line r = Py.str s /\ last_line r = Py.str e /\
      -1 <= s < e /\ e < Py.len content /\
      (s = -1 \/ Py.index content s = Done Py.lbrace) /\
      Py.index content e = Done Py.rbrace /\
      json_loads (Py.slice content s (e + 1)) = Some (data r).
Proof.
  intros Hmain r Hr.
  destruct (main_array_inv json_loads _ _ _ _ _ Hmain)
    as (positions & found & Hpos & [_ Hres _ _]).
  destruct (find_all_positions_spec content id) as (positions' & Hpos' & _ & Hmem).
  rewrite Hpos in Hpos'. injection Hpos' as <-.
  destruct (Hres r Hr) as (p & c & text & s & e & Hp & Hext & _ & Hs & He & Hdata).
  apply Hmem, match_in_range in Hp.
  pose proof (extract_json_object_scans content p Hp) as Hspec.
  destruct (closing _ _) as [j|] eqn:Hj; [|congruence].
  destruct Hspec as (s' & Hnear & Hclose & Hext').
  pose proof (extract_json_object_text _ _ _ _ _ Hext) as Htext.
  rewrite Hext in Hext'. injection Hext' as _ <- ->.
  pose proof (closing_lt _ _ _ Hj) as Hlt.
  pose proof (suffix_length content (Z.to_nat (p + 1))) as Hlen.
  exists s, (p + 1 + j). split; [done|]. split; [done|].
  split; [destruct Hnear as [[-> _]|(? & _)]; lia|].
  split; [unfold Py.len; lia|].
  split; [destruct Hnear as [[-> _]|(_ & ? & _)]; [by left|by right]|].
  split; [done|]. by rewrite <- Htext.
Qed.

End Failure.


(** The two offsets printed with an element of the array locate it in the
    document: they are the decimal strings of a start and an end with
    [-1 <= start < end < len(content)], a closing brace stands at the end, an
    opening brace at the start unless the start is [-1], and the slice
    [content[start : end + 1]] decodes to the data of the element. *)
Theorem printed_offsets_locate_the_data :
  forall (V : Type) (json_loads : string -> option V)
         (content filename id : string) (indent : option Z)
         (results : list (result V)),
    main json_loads (Text content) filename id = Done (PrintArray indent results) ->
    forall r, r ∈ results ->
      exists s e,
        first_line r = Py.str s /\ last_line r = Py.str e /\
        -1 <= s < e /\ e < Py.len content /\
        (s = -1 \/ Py.index content s = Done Py.lbrace) /\
        Py.index content e = Done Py.rbrace /\
        json_loads (Py.slice content s (e + 1)) = Some (data r).
Proof. intros V json_loads. exact (main_offsets json_loads). Qed.

Lemma printed_offsets_locate_the_data_witness :
  let D := Py.dq "[{'id': '7', 'a': {}}, {'id': '7'}]" in
  let r := Result "23" "33" (Json.Object [("id", Json.Str "7")]) in
  exists s e,
    first_line r = Py.str s /\ last_line r = Py.str e /\
    -1 <= s < e /\ e < Py.len D /\
    (s = -1 \/ Py.index D s = Done Py.lbrace) /\
    Py.index D e = Done Py.rbrace /\
    Json.loads (Py.slice D s (e + 1)) = Some (data r).
Proof.
  intros D r.
  apply (printed_offsets_locate_the_data Json.value Json.loads D
           "results.json" "7" (Some 2)
           [Result "1" "20"
              (Json.Object [("id", Json.Str "7"); ("a", Json.Object [])]); r]).
  - vm_compute. reflexivity.
  - apply elem_of_cons. right. apply elem_of_cons. by left.
Defined.

(** ** [extract_district_number] *)

Lemma append_nil (r : string) : EmptyString +:+ r = r.
Proof. reflexivity. Qed.

Lemma append_cons (a : ascii) (p r : string) :
  String a p +:+ r = String a (p +:+ r).
Proof. reflexivity. Qed.

Lemma strip_app (p s r : string) : Json.strip p s = Some r -> s = p +:+ r.
Proof.
  revert s. induction p as [|a p IH]; intros s H; simpl in H.
  - by injection H as <-.
  - destruct s as [|b s]; [done|].
    destruct (Ascii.eqb_spec a b) as [<-|]; [|done].
    rewrite append_cons. f_equal. by apply IH.
Qed.

Lemma strip_prefix (p r : string) : Json.strip p (p +:+ r) = Some r.
Proof.
  induction p as [|a p IH]; [done|].
  rewrite append_cons. simpl. by rewrite Ascii.eqb_refl.
Qed.

Lemma digits_spec (s : string) :
  s = (Json.digits s).1 +:+ (Json.digits s).2 /\
  all_digits (Json.digits s).1 = true /\
  match (Json.digits s).2 with
  | String c _ => Json.is_digit c = false
  | EmptyString => True
  end.
Proof.
  induction s as [|c s (IH1 & IH2 & IH3)]; [done|]. simpl.
  destruct (Json.is_digit c) eqn:Hc.
  - destruct (Json.digits s) as [d rest]. simpl in *.
    rewrite append_cons, Hc. split; [by f_equal|done].
  - simpl. by rewrite append_nil.
Qed.

Lemma append_inj (a x y : string) : a +:+ x = a +:+ y -> x = y.
Proof.
  induction a as [|c a IH]; [done|].
  rewrite !append_cons. intros [= H]. by apply IH.
Qed.

Lemma append_assoc (a b c : string) : (a +:+ b) +:+ c = a +:+ (b +:+ c).
Proof.
  induction a as [|x a IH]; [done|]. by rewrite !append_cons, IH.
Qed.

Lemma append_length (a b : string) :
  String.length (a +:+ b) = (String.length a + String.length b)%nat.
Proof.
  induction a as [|x a IH]; [done|]. rewrite append_cons. simpl. by rewrite IH.
Qed.

Lemma suffix_0 (s : string) : suffix s 0 = s.
Proof.
  unfold suffix. rewrite Nat.sub_0_r.
  induction s as [|c s IH]; simpl; [done|]. by rewrite IH.
Qed.

Lemma suffix_S (c : ascii) (s : string) (n : nat) :
  suffix (String c s) (S n) = suffix s n.
Proof. reflexivity. Qed.

Lemma substring_prefix (a b : string) :
  String.substring 0 (String.length a) (a +:+ b) = a.
Proof.
  induction a as [|c a IH]; [by destruct b|].
  rewrite append_cons. simpl. by rewrite IH.
Qed.

(** A text at the head of a suffix occurs at the offset of the suffix. *)
Lemma suffix_occurs (name a r : string) (n : nat) :
  suffix name n = a +:+ r -> occurs_at name a (Z.of_nat n).
Proof.
  intros H. split; [lia|]. rewrite Nat2Z.id.
  pose proof (suffix_length name n) as Hlen.
  rewrite H, append_length in Hlen.
  replace n with (n + 0)%nat at 1 by lia.
  rewrite <- (substring_substring name n (String.length name - n)) by lia.
  fold (suffix name n). rewrite H. apply substring_prefix.
Qed.

Lemma occurs_suffix (name : string) :
  forall (n : nat) (a : string),
    String.substring n (String.length a) name = a ->
    exists r, suffix name n = a +:+ r.
Proof.
  induction name as [|c name IH]; intros n a H.
  - assert (a = EmptyString) as -> by (destruct n, a; simpl in H; congruence).
    by exists (suffix EmptyString n).
  - destruct n as [|n].
    + destruct a as [|c' a]; [by exists (suffix (String c name) 0)|].
      simpl in H. injection H as <- H.
      destruct (IH 0%nat a H) as [r Hr]. exists r.
      rewrite suffix_0 in *. simpl. by rewrite Hr.
    + rewrite suffix_S. apply IH. exact H.
Qed.

Lemma re_search_first (s d : string) :
  District.re_search s = Some d ->
  exists n,
    District.match_here (suffix s n) = Some d /\
    forall m, (m < n)%nat -> District.match_here (suffix s m) = None.
Proof.
  induction s as [|c s IH]; simpl.
  - done.
  - destruct (District.match_here (String c s)) as [d'|] eqn:E.
    + intros [= ->]. exists 0%nat. rewrite suffix_0. split; [done|].
      intros m Hm. lia.
    + intros H. destruct (IH H) as (n & Hn & Hfirst). exists (S n).
      rewrite suffix_S. split; [done|]. intros [|m] Hm.
      * by rewrite suffix_0.
      * rewrite suffix_S. apply Hfirst. lia.
Qed.


(** What a successful attempt at a suffix says of the name. *)
Lemma match_here_occurs (name d : string) (n : nat) :
  District.match_here (suffix name n) = Some d ->
  d <> EmptyString /\ all_digits d = true /\
  occurs_at name (District.prefix +:+ d) (Z.of_nat n) /\
  forall c,
    occurs_at name (District.prefix +:+ d +:+ String c EmptyString) (Z.of_nat n) ->
    Json.is_digit c = false.
Proof.
  unfold District.match_here.
  destruct (Json.strip District.prefix (suffix name n)) as [rest|] eqn:Hstrip;
    [|done].
  apply strip_app in Hstrip.
  destruct (digits_spec rest) as (Hrest & Hdigits & Hnext).
  destruct (Json.digits rest) as [[|d0 ds] rest'] eqn:Hd; [done|].
  simpl in Hrest, Hdigits, Hnext. intros [= <-].
  split; [done|]. split; [done|].
  assert (suffix name n = (District.prefix +:+ String d0 ds) +:+ rest') as Hsuf
    by (rewrite Hstrip, Hrest; by rewrite append_assoc).
  split; [by eapply suffix_occurs|].
  intros c [_ Hocc]. rewrite Nat2Z.id in Hocc.
  destruct (occurs_suffix _ _ _ Hocc) as [r Hr].
  rewrite Hsuf in Hr. rewrite <- !append_assoc in Hr.
  rewrite !append_assoc in Hr. apply append_inj, append_inj in Hr.
  simpl in Hr. subst rest'. exact Hnext.
Qed.

(** An occurrence of the prefix before a digit makes the attempt succeed. *)
Lemma occurs_match_here (name : string) (n : nat) (c : ascii) :
  occurs_at name (District.prefix +:+ String c EmptyString) (Z.of_nat n) ->
  Json.is_digit c = true ->
  District.match_here (suffix name n) <> None.
Proof.
  intros [_ Hocc] Hc. rewrite Nat2Z.id in Hocc.
  destruct (occurs_suffix _ _ _ Hocc) as [r Hr].
  unfold District.match_here.
  rewrite Hr, append_assoc, strip_prefix, append_cons, append_nil.
  simpl. rewrite Hc. by destruct (Json.digits r).
Qed.

Lemma district_number_leftmost (name d : string) :
  District.extract_district_number name = Some d ->
  (exists q, occurs_at name District.marker q) /\
  d <> EmptyString /\ all_digits d = true /\
  exists p,
    occurs_at name (District.prefix +:+ d) p /\
    (forall c,
        occurs_at name (District.prefix +:+ d +:+ String c EmptyString) p ->
        Json.is_digit c = false) /\
    (forall q c,
        0 <= q < p ->
        occurs_at name (District.prefix +:+ String c EmptyString) q ->
        Json.is_digit c = false).
Proof.
  unfold District.extract_district_number.
  destruct (Z.eqb_spec (Py.find name District.marker 0) (-1)) as [|Hfound];
    [done|].
  intros Hsearch. split.
  { destruct (find_found name District.marker 0 _ ltac:(lia) eq_refl Hfound)
      as (_ & Hocc & _). eauto. }
  destruct (re_search_first _ _ Hsearch) as (n & Hn & Hfirst).
  destruct (match_here_occurs _ _ _ Hn) as (Hne & Hdigits & Hocc & Hmax).
  split; [done|]. split; [done|]. exists (Z.of_nat n).
  split; [done|]. split; [done|].
  intros q c Hq Hoccq. destruct (Json.is_digit c) eqn:Hc; [|done].
  exfalso. replace q with (Z.of_nat (Z.to_nat q)) in Hoccq by lia.
  apply (occurs_match_here _ _ _ Hoccq Hc). apply Hfirst. lia.
Qed.


(** A number returned for a contest name is a non-empty string of digits;
    the name holds the marker, and the digits are the whole run of digits
    after the leftmost [District ] of the name that a digit follows,
    wherever the marker stands. *)
Theorem extract_district_number_leftmost :
  forall name d : string,
    District.extract_district_number name = Some d ->
    (exists q, occurs_at name District.marker q) /\
    d <> EmptyString /\ all_digits d = true /\
    exists p,
      occurs_at name (District.prefix +:+ d) p /\
      (forall c,
          occurs_at name (District.prefix +:+ d +:+ String c EmptyString) p ->
          Json.is_digit c = false) /\
      (forall q c,
          0 <= q < p ->
          occurs_at name (District.prefix +:+ String c EmptyString) q ->
          Json.is_digit c = false).
Proof. exact district_number_leftmost. Qed.

Lemma extract_district_number_leftmost_witness :
  let name := "District 3 Court and State House of Representatives - District 12" in
  (exists q, occurs_at name District.marker q) /\
  "3" <> EmptyString /\ all_digits "3" = true /\
  exists p,
    occurs_at name (District.prefix +:+ "3") p /\
    (forall c,
        occurs_at name (District.prefix +:+ "3" +:+ String c EmptyString) p ->
        Json.is_digit c = false) /\
    (forall q c,
        0 <= q < p ->
        occurs_at name (District.prefix +:+ String c EmptyString) q ->
        Json.is_digit c = false).
Proof.
  intros name. apply (extract_district_number_leftmost name "3"). reflexivity.
Defined.

